(** * Interval heap of the C Macro Collections library (src/cmc/intervalheap.h)

    A shallow embedding of the code generated by
    [CMC_GENERATE_INTERVALHEAP(PFX, SNAME, V)] with [PFX = ih] and
    [SNAME = intervalheap], kept generic in the element type [V], in its
    comparator [f_val->cmp] and in the value [(V){ 0 }].

    - [size_t] is a [Z] in [0, 2^64); every arithmetic operation of the
      source that can leave that range is written with [wrap].
    - The node array [buffer] is a [list] of nodes, read with [node_at] and
      written slot by slot with [set_data_at], one call per C assignment.
      A read outside the list gives the zero node and a write outside it
      does nothing (both are undefined in C); the theorems below are about
      heaps whose accesses stay inside the array.
    - [realloc] is the allocator port: it receives the old array and the new
      number of nodes and answers with the new array, or [None].
    - The [while] loops are structural recursions on a fuel counter that is
      started at the number of nodes in use; the [_loop_fuel] lemmas show
      that the counter never runs out before the loop leaves. *)

From Stdlib Require Import ZArith Lia Bool List.
From stdpp Require Import base list.
Import ListNotations.

#[local] Open Scope Z_scope.

Module IntervalHeap.

(** ** Machine integers *)

Definition UINT64_MAX : Z := 18446744073709551615.

Definition wrap (z : Z) : Z := z mod 18446744073709551616.

Section Generic.

Context {V : Type}.

(** [(V){ 0 }] *)
Variable zeroV : V.

(** [_heap_->f_val->cmp] *)
Variable cmp : V -> V -> Z.

(** ** Data model *)

(** [struct SNAME##_node]: [data[0]] belongs to the MinHeap, [data[1]] to the
    MaxHeap. *)
Record intervalheap_node : Type := mk_node { data0 : V; data1 : V }.

Definition zero_node : intervalheap_node := mk_node zeroV zeroV.

(** [n.data[k]] *)
Definition data (n : intervalheap_node) (k : Z) : V :=
  if k =? 0 then data0 n else data1 n.

(** [n.data[k] = v] *)
Definition set_data (n : intervalheap_node) (k : Z) (v : V) : intervalheap_node :=
  if k =? 0 then mk_node v (data1 n) else mk_node (data0 n) v.

(** [struct SNAME]; [flag], [f_val], [alloc], [callbacks] and the two iterator
    function pointers are written once by [ih_new] and read by none of the
    functions embedded here. *)
Record intervalheap : Type := mk_heap {
  buffer : list intervalheap_node;
  capacity : Z;
  size : Z;
  count : Z
}.

(** [struct SNAME##_iter]; the [target] pointer is the heap passed next to the
    iterator. *)
Record intervalheap_iter : Type := mk_iter {
  cursor : Z;
  start : bool;
  end_ : bool
}.

(** [buffer[i]] *)
Definition node_at (b : list intervalheap_node) (i : Z) : intervalheap_node :=
  default zero_node (b !! Z.to_nat i).

(** [buffer[i].data[k] = v] *)
Definition set_data_at (b : list intervalheap_node) (i k : Z) (v : V)
  : list intervalheap_node :=
  <[Z.to_nat i := set_data (node_at b i) k v]> b.

(** [buffer[i / 2].data[i % 2]]: the element at buffer position [i]. *)
Definition element_at (b : list intervalheap_node) (i : Z) : V :=
  data (node_at b (i / 2)) (i mod 2).

Definition with_buffer (h : intervalheap) (b : list intervalheap_node) : intervalheap :=
  mk_heap b (capacity h) (size h) (count h).

(** ** Allocation *)

Definition allocator : Type :=
  list intervalheap_node -> Z -> option (list intervalheap_node).

(** [memset(buffer + from, 0, sizeof(node) * n)] *)
Definition memset_nodes (b : list intervalheap_node) (from n : Z)
  : list intervalheap_node :=
  foldl (fun acc i => <[i := zero_node]> acc) b (seq (Z.to_nat from) (Z.to_nat n)).

(** [PFX##_new]: [f_val] tells whether the pointer to the function table is
    not [NULL] (the table itself is the comparator of this section);
    [malloc_ok] and [calloc_ok] are the outcomes of the two allocations. *)
Definition ih_new (cap : Z) (f_val malloc_ok calloc_ok : bool)
  : option intervalheap :=
  if (cap =? 0) || (cap =? UINT64_MAX) then None
  else if negb f_val then None
  else if negb malloc_ok then None
  else
    let cap := if cap mod 2 =? 0 then cap / 2 else wrap (cap + 1) / 2 in
    if negb calloc_ok then None
    else Some (mk_heap (replicate (Z.to_nat cap) zero_node) cap 0 0).

(** ** Collection state *)

Definition ih_empty (h : intervalheap) : bool := count h =? 0.

Definition ih_full (h : intervalheap) : bool :=
  (size h >=? capacity h) && (count h mod 2 =? 0).

Definition ih_count (h : intervalheap) : Z := count h.

Definition ih_capacity (h : intervalheap) : Z := capacity h.

(** [PFX##_resize] *)
Definition ih_resize (realloc : allocator) (h : intervalheap) (cap : Z)
  : bool * intervalheap :=
  if ih_capacity h =? cap then (true, h)
  else if cap <? ih_count h then (false, h)
  else
    let cap := if cap mod 2 =? 0 then cap / 2 else wrap (cap + 1) / 2 in
    match realloc (buffer h) cap with
    | None => (false, h)
    | Some new_buffer =>
        (true,
         mk_heap (memset_nodes new_buffer (capacity h) (capacity h))
                 cap (size h) (count h))
    end.

(** ** Float passes *)

Fixpoint float_up_min_loop (fuel : nat) (b : list intervalheap_node) (index : Z)
  : list intervalheap_node :=
  match fuel with
  | O => b
  | S fuel =>
      if index >? 0 then
        let P_index := (index - 1) / 2 in
        if cmp (data (node_at b index) 0) (data (node_at b P_index) 0) >=? 0 then b
        else
          let tmp := data (node_at b index) 0 in
          let b := set_data_at b index 0 (data (node_at b P_index) 0) in
          let b := set_data_at b P_index 0 tmp in
          float_up_min_loop fuel b P_index
      else b
  end.

(** [PFX##_impl_float_up_min] *)
Definition ih_impl_float_up_min (h : intervalheap) : intervalheap :=
  with_buffer h
    (float_up_min_loop (Z.to_nat (size h)) (buffer h) (wrap (size h - 1))).

Fixpoint float_up_max_loop (fuel : nat) (sz cnt : Z) (b : list intervalheap_node)
  (index : Z) : list intervalheap_node :=
  match fuel with
  | O => b
  | S fuel =>
      if index >? 0 then
        let P_index := (index - 1) / 2 in
        if (index =? wrap (sz - 1)) && negb (cnt mod 2 =? 0) then
          if cmp (data (node_at b index) 0) (data (node_at b P_index) 1) <? 0 then b
          else
            let tmp := data (node_at b index) 0 in
            let b := set_data_at b index 0 (data (node_at b P_index) 1) in
            let b := set_data_at b P_index 1 tmp in
            float_up_max_loop fuel sz cnt b P_index
        else
          if cmp (data (node_at b index) 1) (data (node_at b P_index) 1) <? 0 then b
          else
            let tmp := data (node_at b index) 1 in
            let b := set_data_at b index 1 (data (node_at b P_index) 1) in
            let b := set_data_at b P_index 1 tmp in
            float_up_max_loop fuel sz cnt b P_index
      else b
  end.

(** [PFX##_impl_float_up_max] *)
Definition ih_impl_float_up_max (h : intervalheap) : intervalheap :=
  with_buffer h
    (float_up_max_loop (Z.to_nat (size h)) (size h) (count h) (buffer h)
       (wrap (size h - 1))).

Fixpoint float_down_max_loop (fuel : nat) (sz cnt : Z) (b : list intervalheap_node)
  (index : Z) : list intervalheap_node :=
  match fuel with
  | O => b
  | S fuel =>
      if wrap (2 * index + 1) >=? sz then b
      else
        let L_index := wrap (index * 2 + 1) in
        let R_index := wrap (index * 2 + 2) in
        let child :=
          if R_index <? sz then
            if (R_index =? wrap (sz - 1)) && negb (cnt mod 2 =? 0) then
              if cmp (data (node_at b L_index) 1) (data (node_at b R_index) 0) >? 0
              then L_index else R_index
            else
              if cmp (data (node_at b L_index) 1) (data (node_at b R_index) 1) >? 0
              then L_index else R_index
          else L_index in
        if (child =? wrap (sz - 1)) && negb (cnt mod 2 =? 0) then
          if cmp (data (node_at b index) 1) (data (node_at b child) 0) >=? 0 then b
          else
            let tmp := data (node_at b child) 0 in
            let b := set_data_at b child 0 (data (node_at b index) 1) in
            let b := set_data_at b index 1 tmp in
            float_down_max_loop fuel sz cnt b child
        else
          if cmp (data (node_at b index) 1) (data (node_at b child) 1) >=? 0 then b
          else
            let tmp := data (node_at b child) 1 in
            let b := set_data_at b child 1 (data (node_at b index) 1) in
            let b := set_data_at b index 1 tmp in
            let b :=
              if cmp (data (node_at b child) 0) (data (node_at b child) 1) >? 0 then
                let tmp := data (node_at b child) 0 in
                let b := set_data_at b child 0 (data (node_at b child) 1) in
                set_data_at b child 1 tmp
              else b in
            float_down_max_loop fuel sz cnt b child
  end.

(** [PFX##_impl_float_down_max] *)
Definition ih_impl_float_down_max (h : intervalheap) : intervalheap :=
  with_buffer h
    (float_down_max_loop (Z.to_nat (size h)) (size h) (count h) (buffer h) 0).

Fixpoint float_down_min_loop (fuel : nat) (sz cnt : Z) (b : list intervalheap_node)
  (index : Z) : list intervalheap_node :=
  match fuel with
  | O => b
  | S fuel =>
      if wrap (2 * index + 1) >=? sz then b
      else
        let L_index := wrap (index * 2 + 1) in
        let R_index := wrap (index * 2 + 2) in
        let child :=
          if R_index <? sz then
            if cmp (data (node_at b L_index) 0) (data (node_at b R_index) 0) <? 0
            then L_index else R_index
          else L_index in
        if cmp (data (node_at b index) 0) (data (node_at b child) 0) <? 0 then b
        else
          let tmp := data (node_at b child) 0 in
          let b := set_data_at b child 0 (data (node_at b index) 0) in
          let b := set_data_at b index 0 tmp in
          let b :=
            if negb (child =? wrap (sz - 1)) || (cnt mod 2 =? 0) then
              if cmp (data (node_at b child) 0) (data (node_at b child) 1) >? 0 then
                let tmp := data (node_at b child) 0 in
                let b := set_data_at b child 0 (data (node_at b child) 1) in
                set_data_at b child 1 tmp
              else b
            else b in
          float_down_min_loop fuel sz cnt b child
  end.

(** [PFX##_impl_float_down_min] *)
Definition ih_impl_float_down_min (h : intervalheap) : intervalheap :=
  with_buffer h
    (float_down_min_loop (Z.to_nat (size h)) (size h) (count h) (buffer h) 0).

(** ** Collection input and output *)

(** [PFX##_insert] *)
Definition ih_insert (realloc : allocator) (h : intervalheap) (element : V)
  : bool * intervalheap :=
  let (resized, h) :=
    if ih_full h then ih_resize realloc h (wrap (ih_capacity h * 4)) else (true, h) in
  if negb resized then (false, h)
  else
    let h :=
      if ih_count h mod 2 =? 0 then
        let b := set_data_at (buffer h) (size h) 0 element in
        let b := set_data_at b (size h) 1 zeroV in
        mk_heap b (capacity h) (wrap (size h + 1)) (count h)
      else
        let node := wrap (size h - 1) in
        if cmp (data (node_at (buffer h) node) 0) element >? 0 then
          let b := set_data_at (buffer h) node 1 (data (node_at (buffer h) node) 0) in
          with_buffer h (set_data_at b node 0 element)
        else
          with_buffer h (set_data_at (buffer h) node 1 element) in
    let h := mk_heap (buffer h) (capacity h) (size h) (wrap (count h + 1)) in
    if ih_count h <=? 2 then (true, h)
    else
      let parent := wrap (size h - 1) / 2 in
      if cmp (data (node_at (buffer h) parent) 0) element >? 0 then
        (true, ih_impl_float_up_min h)
      else if cmp (data (node_at (buffer h) parent) 1) element <? 0 then
        (true, ih_impl_float_up_max h)
      else (true, h).

(** [PFX##_remove_max]: [None] is the [false] return, [Some v] the [true]
    return with [*result = v]. *)
Definition ih_remove_max (h : intervalheap) : option V * intervalheap :=
  if ih_empty h then (None, h)
  else if ih_count h =? 1 then
    let result := data (node_at (buffer h) 0) 0 in
    let b := set_data_at (buffer h) 0 0 zeroV in
    (Some result, mk_heap b (capacity h) (size h) (wrap (count h - 1)))
  else
    let result := data (node_at (buffer h) 0) 1 in
    let last_node := wrap (size h - 1) in
    let h :=
      if ih_count h mod 2 =? 1 then
        let b := set_data_at (buffer h) 0 1 (data (node_at (buffer h) last_node) 0) in
        let b := set_data_at b last_node 0 zeroV in
        mk_heap b (capacity h) (wrap (size h - 1)) (count h)
      else
        let b := set_data_at (buffer h) 0 1 (data (node_at (buffer h) last_node) 1) in
        with_buffer h (set_data_at b last_node 1 zeroV) in
    let h := mk_heap (buffer h) (capacity h) (size h) (wrap (count h - 1)) in
    (Some result, ih_impl_float_down_max h).

(** [PFX##_remove_min] *)
Definition ih_remove_min (h : intervalheap) : option V * intervalheap :=
  if ih_empty h then (None, h)
  else
    let result := data (node_at (buffer h) 0) 0 in
    if ih_count h =? 1 then
      let b := set_data_at (buffer h) 0 0 zeroV in
      (Some result, mk_heap b (capacity h) (size h) (wrap (count h - 1)))
    else
      let last_node := wrap (size h - 1) in
      let b := set_data_at (buffer h) 0 0 (data (node_at (buffer h) last_node) 0) in
      let h :=
        if ih_count h mod 2 =? 1 then
          let b := set_data_at b last_node 0 zeroV in
          mk_heap b (capacity h) (wrap (size h - 1)) (count h)
        else
          let b := set_data_at b last_node 0 (data (node_at b last_node) 1) in
          with_buffer h (set_data_at b last_node 1 zeroV) in
      let h := mk_heap (buffer h) (capacity h) (size h) (wrap (count h - 1)) in
      (Some result, ih_impl_float_down_min h).

(** ** Collection update *)

(** [PFX##_update_max] *)
Definition ih_update_max (h : intervalheap) (element : V) : bool * intervalheap :=
  if ih_empty h then (false, h)
  else if ih_count h =? 1 then
    (true, with_buffer h (set_data_at (buffer h) 0 0 element))
  else if cmp element (data (node_at (buffer h) 0) 0) <? 0 then
    let b := set_data_at (buffer h) 0 1 (data (node_at (buffer h) 0) 0) in
    let b := set_data_at b 0 0 element in
    (true, ih_impl_float_down_max (with_buffer h b))
  else
    let b := set_data_at (buffer h) 0 1 element in
    (true, ih_impl_float_down_max (with_buffer h b)).

(** [PFX##_update_min] *)
Definition ih_update_min (h : intervalheap) (element : V) : bool * intervalheap :=
  if ih_empty h then (false, h)
  else if ih_count h =? 1 then
    (true, with_buffer h (set_data_at (buffer h) 0 0 element))
  else if cmp element (data (node_at (buffer h) 0) 1) >? 0 then
    let b := set_data_at (buffer h) 0 0 (data (node_at (buffer h) 0) 1) in
    let b := set_data_at b 0 1 element in
    (true, ih_impl_float_down_min (with_buffer h b))
  else
    let b := set_data_at (buffer h) 0 0 element in
    (true, ih_impl_float_down_min (with_buffer h b)).

(** ** Element access *)

(** [PFX##_max] *)
Definition ih_max (h : intervalheap) : option V :=
  if ih_empty h then None
  else if ih_count h =? 1 then Some (data (node_at (buffer h) 0) 0)
  else Some (data (node_at (buffer h) 0) 1).

(** [PFX##_min] *)
Definition ih_min (h : intervalheap) : option V :=
  if ih_empty h then None else Some (data (node_at (buffer h) 0) 0).

(** ** Collection utility *)

(** The [for] loop of [PFX##_equals], entered at index [i] with [n] rounds
    left. *)
Fixpoint equals_loop (n : nat) (b1 b2 : list intervalheap_node) (i : Z) : bool :=
  match n with
  | O => false
  | S n =>
      if cmp (element_at b1 i) (element_at b2 i) =? 0 then true
      else equals_loop n b1 b2 (i + 1)
  end.

(** [PFX##_equals] *)
Definition ih_equals (h1 h2 : intervalheap) : bool :=
  if negb (ih_count h1 =? ih_count h2) then false
  else equals_loop (Z.to_nat (count h1)) (buffer h1) (buffer h2) 0.

(** ** Iterator *)

(** [PFX##_iter_init] *)
Definition ih_iter_init (target : intervalheap) : intervalheap_iter :=
  mk_iter 0 true (ih_empty target).

(** [PFX##_iter_start] *)
Definition ih_iter_start (target : intervalheap) (iter : intervalheap_iter) : bool :=
  ih_empty target || start iter.

(** [PFX##_iter_end] *)
Definition ih_iter_end (target : intervalheap) (iter : intervalheap_iter) : bool :=
  ih_empty target || end_ iter.

(** [PFX##_iter_to_start] *)
Definition ih_iter_to_start (target : intervalheap) (iter : intervalheap_iter)
  : intervalheap_iter :=
  if negb (ih_empty target) then mk_iter 0 true (ih_empty target) else iter.

(** [PFX##_iter_to_end] *)
Definition ih_iter_to_end (target : intervalheap) (iter : intervalheap_iter)
  : intervalheap_iter :=
  if negb (ih_empty target) then
    mk_iter (wrap (count target - 1)) (ih_empty target) true
  else iter.

(** [PFX##_iter_next] *)
Definition ih_iter_next (target : intervalheap) (iter : intervalheap_iter)
  : bool * intervalheap_iter :=
  if end_ iter then (false, iter)
  else if wrap (cursor iter + 1) =? ih_count target then
    (false, mk_iter (cursor iter) (start iter) true)
  else
    (true, mk_iter (wrap (cursor iter + 1)) (ih_empty target) (end_ iter)).

(** [PFX##_iter_prev] *)
Definition ih_iter_prev (target : intervalheap) (iter : intervalheap_iter)
  : bool * intervalheap_iter :=
  if start iter then (false, iter)
  else if cursor iter =? 0 then
    (false, mk_iter (cursor iter) true (end_ iter))
  else
    (true, mk_iter (wrap (cursor iter - 1)) (start iter) (ih_empty target)).

(** [PFX##_iter_advance] *)
Definition ih_iter_advance (target : intervalheap) (iter : intervalheap_iter)
  (steps : Z) : bool * intervalheap_iter :=
  if start iter then (false, iter)
  else if cursor iter =? 0 then
    (false, mk_iter (cursor iter) true (end_ iter))
  else if (steps =? 0) || (wrap (cursor iter + steps) >=? ih_count target) then
    (false, iter)
  else
    (true, mk_iter (wrap (cursor iter + steps)) (ih_empty target) (end_ iter)).

(** [PFX##_iter_rewind] *)
Definition ih_iter_rewind (target : intervalheap) (iter : intervalheap_iter)
  (steps : Z) : bool * intervalheap_iter :=
  if start iter then (false, iter)
  else if cursor iter =? 0 then
    (false, mk_iter (cursor iter) true (end_ iter))
  else if (steps =? 0) || (cursor iter <? steps) then (false, iter)
  else
    (true, mk_iter (wrap (cursor iter - steps)) (start iter) (ih_empty target)).

(** [PFX##_iter_go_to] *)
Definition ih_iter_go_to (target : intervalheap) (iter : intervalheap_iter)
  (index : Z) : bool * intervalheap_iter :=
  if index >=? ih_count target then (false, iter)
  else if cursor iter >? index then
    ih_iter_rewind target iter (wrap (cursor iter - index))
  else if cursor iter <? index then
    ih_iter_advance target iter (wrap (index - cursor iter))
  else (true, iter).

(** [PFX##_iter_value] *)
Definition ih_iter_value (target : intervalheap) (iter : intervalheap_iter) : V :=
  if ih_empty target then zeroV
  else data (node_at (buffer target) (cursor iter / 2)) (cursor iter mod 2).

(** [PFX##_iter_index] *)
Definition ih_iter_index (iter : intervalheap_iter) : Z := cursor iter.

(** ** Specification vocabulary *)

(** [a] is not greater than [b] under the comparator. *)
Definition le (a b : V) : Prop := cmp a b <= 0.

(** What the C standard promises of [realloc]: on success the new array has
    the requested number of nodes and keeps the old contents up to the
    shorter of the two lengths. *)
Definition realloc_contract (realloc : allocator) : Prop :=
  forall (b b' : list intervalheap_node) (n : Z),
    realloc b n = Some b' ->
    length b' = Z.to_nat n /\
    forall i : nat, (i < length b)%nat -> (i < Z.to_nat n)%nat -> b' !! i = b !! i.

(** Slot [k] of node [i] holds one of the [cnt] stored elements. *)
Definition occupied (cnt i k : Z) : Prop :=
  0 <= i /\ (k = 0 \/ k = 1) /\ 2 * i + k < cnt.

(** Every occupied slot other than [(ei, ek)] is bounded below by the root's
    MinHeap value. *)
Definition low_ok (b : list intervalheap_node) (cnt ei ek : Z) : Prop :=
  forall i k, occupied cnt i k -> ~ (i = ei /\ k = ek) ->
    le (data (node_at b 0) 0) (data (node_at b i) k).

(** Every occupied slot other than [(ei, ek)] is bounded above by the root's
    MaxHeap value. *)
Definition high_ok (b : list intervalheap_node) (cnt ei ek : Z) : Prop :=
  forall i k, occupied cnt i k -> ~ (i = ei /\ k = ek) ->
    le (data (node_at b i) k) (data (node_at b 0) 1).

(** The slot that [float_up_max] is moving up when it stands at [index]: the
    MinHeap slot of the last node while that node is incomplete, the MaxHeap
    slot otherwise. *)
Definition floating_slot (sz cnt index : Z) : Z :=
  if (index =? sz - 1) && negb (cnt mod 2 =? 0) then 0 else 1.

(** Shape of a heap: the array has [capacity] nodes, [size] of them are in
    use and only the last one may miss its MaxHeap value. *)
Definition well_formed (h : intervalheap) : Prop :=
  0 < capacity h < 9223372036854775808 /\
  length (buffer h) = Z.to_nat (capacity h) /\
  0 <= size h <= capacity h /\
  0 <= count h /\
  (count h = 2 * size h \/ count h = 2 * size h - 1).

(** The root node bounds every stored element: its MinHeap value from below,
    its MaxHeap value from above. *)
Definition root_bounds (h : intervalheap) : Prop :=
  2 <= count h ->
  low_ok (buffer h) (count h) (-1) 0 /\ high_ok (buffer h) (count h) (-1) 0.

(** The heaps produced by [ih_new] followed by successful [ih_insert] calls,
    each with an allocator of its own. *)
Inductive inserted : intervalheap -> Prop :=
| inserted_new (cap : Z) (f_val malloc_ok calloc_ok : bool) (h : intervalheap) :
    0 <= cap <= UINT64_MAX ->
    ih_new cap f_val malloc_ok calloc_ok = Some h ->
    inserted h
| inserted_insert (realloc : allocator) (h h' : intervalheap) (element : V) :
    realloc_contract realloc ->
    inserted h ->
    ih_insert realloc h element = (true, h') ->
    inserted h'.

(** ** The remaining collection functions *)

(** [memset(buffer, 0, sizeof(V) * n)]: the first [n] element slots of the
    array, a node being two adjacent slots of type [V]. *)
Definition memset_slots (b : list intervalheap_node) (n : Z) : list intervalheap_node :=
  foldl (fun acc p => set_data_at acc (Z.of_nat p / 2) (Z.of_nat p mod 2) zeroV)
        b (seq 0 (Z.to_nat n)).

(** [PFX##_clear]; the calls of [f_val->free] act on the elements, not on the
    heap. *)
Definition ih_clear (h : intervalheap) : intervalheap :=
  mk_heap (memset_slots (buffer h) (capacity h)) (capacity h) 0 0.

(** The [for] loop of [PFX##_contains], entered at index [i] with [n] rounds
    left. *)
Fixpoint contains_loop (n : nat) (b : list intervalheap_node) (element : V) (i : Z)
  : bool :=
  match n with
  | O => false
  | S n =>
      if cmp (element_at b i) element =? 0 then true
      else contains_loop n b element (i + 1)
  end.

(** [PFX##_contains] *)
Definition ih_contains (h : intervalheap) (element : V) : bool :=
  contains_loop (Z.to_nat (count h)) (buffer h) element 0.

(** [memcpy(dst, src, sizeof(node) * n)] *)
Definition memcpy_nodes (dst src : list intervalheap_node) (n : Z)
  : list intervalheap_node :=
  take (Z.to_nat n) src ++ drop (Z.to_nat n) dst.

(** The [for] loop of [PFX##_copy_of] that copies element by element with
    [f_val->cpy]. *)
Fixpoint copy_loop (n : nat) (cpy : V -> V) (dst src : list intervalheap_node) (i : Z)
  : list intervalheap_node :=
  match n with
  | O => dst
  | S n =>
      copy_loop n cpy
        (set_data_at dst (i / 2) (i mod 2) (cpy (data (node_at src (i / 2)) (i mod 2))))
        src (i + 1)
  end.

(** [PFX##_copy_of]: [cpy] is [f_val->cpy] ([None] for a null pointer),
    [malloc_ok] the outcome of the allocation of the struct and [malloc_nodes]
    the allocation of the array, which hands out memory of arbitrary contents. *)
Definition ih_copy_of (cpy : option (V -> V)) (malloc_ok : bool)
  (malloc_nodes : Z -> option (list intervalheap_node)) (h : intervalheap)
  : option intervalheap :=
  if negb malloc_ok then None
  else
    match malloc_nodes (capacity h) with
    | None => None
    | Some fresh =>
        let b :=
          match cpy with
          | Some f => copy_loop (Z.to_nat (count h)) f fresh (buffer h) 0
          | None => memcpy_nodes fresh (buffer h) (capacity h)
          end in
        Some (mk_heap b (capacity h) (size h) (count h))
    end.

(** [PFX##_impl_it_start] *)
Definition ih_impl_it_start (h : intervalheap) : intervalheap_iter :=
  ih_iter_to_start h (ih_iter_init h).

(** [PFX##_impl_it_end] *)
Definition ih_impl_it_end (h : intervalheap) : intervalheap_iter :=
  ih_iter_to_end h (ih_iter_init h).

(** ** More specification vocabulary *)

(** The first [cnt] elements of the array in buffer order. *)
Definition elements (b : list intervalheap_node) (cnt : Z) : list V :=
  (fun p => element_at b (Z.of_nat p)) <$> seq 0 (Z.to_nat cnt).

(** The stored elements of a heap in buffer order. *)
Definition ih_elements (h : intervalheap) : list V := elements (buffer h) (count h).

(** What [malloc] promises for an array of [n] nodes: on success the array
    has [n] nodes. *)
Definition malloc_contract (malloc_nodes : Z -> option (list intervalheap_node)) : Prop :=
  forall (n : Z) (b : list intervalheap_node),
    malloc_nodes n = Some b -> length b = Z.to_nat n.

(** [filled h l]: [h] is a new heap into which the elements of [l] were
    inserted, the last inserted element first. *)
Inductive filled : intervalheap -> list V -> Prop :=
| filled_new (cap : Z) (f_val malloc_ok calloc_ok : bool) (h : intervalheap) :
    0 <= cap <= UINT64_MAX ->
    ih_new cap f_val malloc_ok calloc_ok = Some h ->
    filled h []
| filled_insert (realloc : allocator) (h h' : intervalheap) (element : V)
    (l : list V) :
    realloc_contract realloc ->
    filled h l ->
    ih_insert realloc h element = (true, h') ->
    filled h' (element :: l).

(** [n] calls of [step] in a row. *)
Fixpoint repeat_step {St : Type} (step : St -> St) (n : nat) (s : St) : St :=
  match n with
  | O => s
  | S n => repeat_step step n (step s)
  end.

End Generic.


Arguments intervalheap_node : clear implicits.
Arguments intervalheap : clear implicits.
Arguments allocator : clear implicits.

End IntervalHeap.

(** * The heap of [int] used by the library's tests *)

Module IntHeap.

Import IntervalHeap.

(** [intcmp] of the tests, on integers whose difference fits an [int]. *)
Definition intcmp (a b : Z) : Z := a - b.

(** An allocator port that always succeeds and hands out zeroed memory. *)
Definition realloc_zero : allocator Z :=
  fun b n => Some (take (Z.to_nat n) b ++ replicate (Z.to_nat n - length b) (zero_node 0)).

(** [ih_insert] for each element of [l] in turn; [None] as soon as one of the
    calls returns [false]. *)
Definition insert_all (h : intervalheap Z) (l : list Z) : option (intervalheap Z) :=
  foldl
    (fun acc e =>
       match acc with
       | Some h =>
           match ih_insert 0 intcmp realloc_zero h e with
           | (true, h') => Some h'
           | (false, _) => None
           end
       | None => None
       end)
    (Some h) l.

(** A heap created by [ih_new] with room for [cap] elements, then filled with
    the elements of [l]. *)
Definition heap_of (cap : Z) (l : list Z) : option (intervalheap Z) :=
  match ih_new 0 cap true true true with
  | Some h => insert_all h l
  | None => None
  end.

(** Call [remove] until it returns [false], at most [fuel] times, collecting
    the results: a list shorter than [fuel] ends with the call that found the
    heap empty. *)
Fixpoint drain (remove : intervalheap Z -> option Z * intervalheap Z) (fuel : nat)
  (h : intervalheap Z) : list Z :=
  match fuel with
  | O => []
  | S fuel =>
      match remove h with
      | (Some v, h) => v :: drain remove fuel h
      | (None, _) => []
      end
  end.

(** The round trip of the heap sort: insert [5,3,8,1,9,2] and empty the heap
    from either end. *)
Definition round_trip (cap : Z) : bool :=
  match heap_of cap [5; 3; 8; 1; 9; 2] with
  | Some h =>
      bool_decide (drain (ih_remove_min 0 intcmp) 7 h = [1; 2; 3; 5; 8; 9]) &&
      bool_decide (drain (ih_remove_max 0 intcmp) 7 h = [9; 8; 5; 3; 2; 1])
  | None => false
  end.

(** The heap after [ih_new(4)] and the inserts 10, 20, 30: the third insert
    floats 30 up into the root. *)
Definition heap_10_30_20 : intervalheap Z :=
  mk_heap [mk_node 10 30; mk_node 20 0] 2 2 3.

(** A heap whose array holds 10, 20, 30 in buffer order. *)
Definition heap_10_20_30 : intervalheap Z :=
  mk_heap [mk_node 10 20; mk_node 30 0] 2 2 3.

(** The full heap after [ih_new(2)] and the inserts 1, 2. *)
Definition heap_1_2 : intervalheap Z := mk_heap [mk_node 1 2] 1 1 2.

(** An allocator port that always fails. *)
Definition realloc_fail : allocator Z := fun _ _ => None.

(** An array allocation that succeeds and hands out memory filled with 7s. *)
Definition malloc_sevens : Z -> option (list (intervalheap_node Z)) :=
  fun n => Some (replicate (Z.to_nat n) (mk_node 7 7)).

(** The heap [heap_10_30_20] after the insert of 5. *)
Definition heap_5_30_10_20 : intervalheap Z :=
  mk_heap [mk_node 5 30; mk_node 10 20] 2 2 4.

End IntHeap.

(** * Properties *)

Import IntervalHeap.

Section Properties.

Context {V : Type}.
Variable zeroV : V.

#[local] Abbreviation node := (intervalheap_node V).
#[local] Abbreviation heap := (intervalheap V).
#[local] Abbreviation node_at := (node_at zeroV).
#[local] Abbreviation set_data_at := (set_data_at zeroV).

#[local] Ltac Zify.zify_post_hook ::= Z.to_euclidean_division_equations.

(** ** Reading and writing slots *)

Lemma wrap_small (z : Z) : 0 <= z < 18446744073709551616 -> wrap z = z.
Proof. intros Hz. unfold wrap. apply Z.mod_small. exact Hz. Qed.

Lemma length_set_data_at (b : list node) (i k : Z) (v : V) :
  length (set_data_at b i k v) = length b.
Proof. unfold set_data_at. apply length_insert. Qed.

Lemma data_set_data (n : node) (k l : Z) (v : V) :
  data (set_data n k v) l =
  if Bool.eqb (l =? 0) (k =? 0) then v else data n l.
Proof.
  unfold data, set_data.
  destruct (k =? 0), (l =? 0); reflexivity.
Qed.

Lemma node_at_set_data_at_same (b : list node) (i k : Z) (v : V) :
  (Z.to_nat i < length b)%nat ->
  node_at (set_data_at b i k v) i = set_data (node_at b i) k v.
Proof.
  intros Hi. unfold set_data_at.
  unfold node_at at 1.
  rewrite list_lookup_insert_eq by exact Hi. reflexivity.
Qed.

Lemma node_at_set_data_at_other (b : list node) (i j k : Z) (v : V) :
  Z.to_nat i <> Z.to_nat j ->
  node_at (set_data_at b i k v) j = node_at b j.
Proof.
  intros Hij. unfold set_data_at.
  unfold node_at at 1.
  rewrite list_lookup_insert_ne by exact Hij. reflexivity.
Qed.

(** Reading slot [(j, l)] after the assignment [buffer[i].data[k] = v]. *)
Lemma data_set_data_at (b : list node) (i j k l : Z) (v : V) :
  0 <= i -> 0 <= j -> (Z.to_nat i < length b)%nat ->
  data (node_at (set_data_at b i k v) j) l =
  if (j =? i) && Bool.eqb (l =? 0) (k =? 0) then v else data (node_at b j) l.
Proof.
  intros Hi Hj Hlen.
  destruct (Z.eqb_spec j i) as [->|Hne]; cbn [andb].
  - rewrite node_at_set_data_at_same by exact Hlen. apply data_set_data.
  - rewrite node_at_set_data_at_other by lia. reflexivity.
Qed.

(** ** Proof automation *)

#[local] Ltac in_range := rewrite ?length_set_data_at; lia.

#[local] Ltac read_slots :=
  rewrite ?data_set_data_at by in_range.

#[local] Ltac split_eqb :=
  repeat match goal with
         | |- context [?a =? ?b] => destruct (Z.eqb_spec a b); cbn [Bool.eqb andb]
         end.

(** ** Growing the array *)

Lemma length_memset_nodes (b : list node) (from n : Z) :
  length (memset_nodes zeroV b from n) = length b.
Proof.
  unfold memset_nodes. generalize (seq (Z.to_nat from) (Z.to_nat n)) as l.
  intros l. revert b. induction l as [|i l IH]; intros b; cbn [foldl].
  - reflexivity.
  - rewrite IH. apply length_insert.
Qed.

Lemma lookup_memset_nodes_below (b : list node) (from n : Z) (i : nat) :
  (i < Z.to_nat from)%nat ->
  memset_nodes zeroV b from n !! i = b !! i.
Proof.
  intros Hi. unfold memset_nodes.
  assert (Hall : Forall (fun j => i <> j) (seq (Z.to_nat from) (Z.to_nat n))).
  { apply Forall_forall. intros j Hj. apply elem_of_seq in Hj. lia. }
  revert b. induction Hall as [|j l Hj _ IH]; intros b; cbn [foldl].
  - reflexivity.
  - rewrite IH. apply list_lookup_insert_ne. congruence.
Qed.

(** The first step of [ih_insert] on a well-formed heap: when it succeeds the
    heap has a free slot, the nodes in use are where they were, and a full
    heap has had its capacity doubled. *)
Lemma insert_resize_ok (realloc : allocator V) (h h1 : heap) :
  realloc_contract realloc -> well_formed h ->
  (if ih_full h then ih_resize zeroV realloc h (wrap (ih_capacity h * 4)) else (true, h))
    = (true, h1) ->
  well_formed h1 /\ size h1 = size h /\ count h1 = count h /\
  (forall i, 0 <= i < size h -> node_at (buffer h1) i = node_at (buffer h) i) /\
  (count h1 = 2 * size h1 -> size h1 < capacity h1) /\
  (ih_full h = true -> capacity h1 = 2 * capacity h).
Proof.
  intros Hre (Hcap & Hlen & Hsz & Hcnt0 & Hshape) Hstep.
  unfold ih_full in *.
  rewrite Z.geb_leb in *.
  destruct (Z.leb_spec (capacity h) (size h)) as [Hfull|Hfree]; cbn [andb] in *.
  2:{ injection Hstep as <-. repeat split; try lia; try assumption; try discriminate. }
  destruct (Z.eqb_spec (count h mod 2) 0) as [Heven|Hoddc].
  2:{ injection Hstep as <-. repeat split; try lia; try assumption; try discriminate. }
  unfold ih_resize, ih_capacity, ih_count, wrap in Hstep.
  destruct (Z.eqb_spec (capacity h) ((capacity h * 4) mod 18446744073709551616));
    [lia|].
  destruct (Z.ltb_spec ((capacity h * 4) mod 18446744073709551616) (count h));
    [discriminate|].
  assert (Hsmall : (capacity h * 4) mod 18446744073709551616 = capacity h * 4) by lia.
  rewrite Hsmall in Hstep.
  replace ((capacity h * 4) mod 2 =? 0) with true in Hstep
    by (symmetry; apply Z.eqb_eq; lia).
  replace (capacity h * 4 / 2) with (2 * capacity h) in Hstep by lia.
  destruct (realloc (buffer h) (2 * capacity h)) as [new_buffer|] eqn:Halloc;
    [|discriminate].
  injection Hstep as <-. unfold well_formed. cbn [buffer capacity size count].
  destruct (Hre _ _ _ Halloc) as (Hnl & Hkeep).
  repeat split; try lia.
  - rewrite length_memset_nodes. exact Hnl.
  - intros i Hi. unfold IntervalHeap.node_at.
    rewrite lookup_memset_nodes_below by lia.
    rewrite Hkeep by lia. reflexivity.
Qed.

(** ** Resizing *)

(** A call of [ih_resize] with a capacity below the element count leaves the
    heap as it was. It returns [false] unless the request equals the capacity
    field, where the first guard returns [true] before the request is
    compared with the count. *)
Lemma resize_below_count (realloc : allocator V) (h : heap) (cap : Z) :
  cap < ih_count h ->
  snd (ih_resize zeroV realloc h cap) = h /\
  (cap <> ih_capacity h -> fst (ih_resize zeroV realloc h cap) = false) /\
  (cap = ih_capacity h -> fst (ih_resize zeroV realloc h cap) = true).
Proof.
  intros Hlt. unfold ih_resize.
  destruct (Z.eqb_spec (ih_capacity h) cap) as [Heq|Hne].
  - repeat split; intros; cbn [fst snd]; congruence.
  - destruct (Z.ltb_spec cap (ih_count h)); [|lia].
    repeat split; intros; cbn [fst snd]; congruence.
Qed.

(** ** Iterating *)

(** C6, as the code has it. On a heap of three elements, after
    [ih_iter_to_start] the first two calls of [ih_iter_next] return [true]
    and the third and fourth return [false]: the third call finds the cursor
    on the last element, sets the end flag and does not move. The end flag is
    unset after the second call and set after the third, with the cursor at
    index 2. *)
Theorem iter_next_three_elements (h : heap) (iter : intervalheap_iter) :
  count h = 3 ->
  let i0 := ih_iter_to_start h iter in
  let r1 := ih_iter_next h i0 in
  let r2 := ih_iter_next h (snd r1) in
  let r3 := ih_iter_next h (snd r2) in
  let r4 := ih_iter_next h (snd r3) in
  [fst r1; fst r2; fst r3; fst r4] = [true; true; false; false] /\
  end_ (snd r2) = false /\ cursor (snd r2) = 2 /\
  end_ (snd r3) = true /\ cursor (snd r3) = 2 /\
  snd r4 = snd r3.
Proof.
  intros Hcnt.
  unfold ih_iter_to_start, ih_iter_next, ih_empty, ih_count. rewrite Hcnt.
  cbn. repeat split; reflexivity.
Qed.

(** A forward move through [ih_iter_advance] is refused whenever the start
    flag is set or the cursor is 0, whatever the number of steps. *)
Lemma iter_advance_from_start (h : heap) (iter : intervalheap_iter) (steps : Z) :
  start iter = true \/ cursor iter = 0 ->
  fst (ih_iter_advance h iter steps) = false /\
  cursor (snd (ih_iter_advance h iter steps)) = cursor iter.
Proof.
  intros Hat. unfold ih_iter_advance.
  destruct (start iter); [split; reflexivity|].
  destruct Hat as [Hs|Hc]; [discriminate|].
  rewrite Hc. cbn. split; reflexivity.
Qed.

(** [ih_iter_go_to] refuses every index at or beyond the element count. *)
Lemma iter_go_to_out_of_range (h : heap) (iter : intervalheap_iter) (index : Z) :
  ih_count h <= index -> ih_iter_go_to h iter index = (false, iter).
Proof.
  intros Hge. unfold ih_iter_go_to.
  destruct (Z.geb_spec index (ih_count h)); [reflexivity|lia].
Qed.

Section Comparator.

Variable cmp : V -> V -> Z.

#[local] Abbreviation le := (le cmp).
#[local] Abbreviation low_ok := (low_ok zeroV cmp).
#[local] Abbreviation high_ok := (high_ok zeroV cmp).
#[local] Abbreviation root_bounds := (root_bounds zeroV cmp).

(** ** The fuel of the loops is enough *)

(** [float_up_min] leaves its loop before [index + 1] rounds are over: any
    two fuels above [index] give the same array. *)
Lemma float_up_min_loop_fuel (n : nat) :
  forall (m : nat) (b : list node) (index : Z),
    0 <= index < Z.of_nat n -> index < Z.of_nat m ->
    float_up_min_loop zeroV cmp n b index = float_up_min_loop zeroV cmp m b index.
Proof.
  induction n as [|n IH]; intros m b index Hn Hm; [lia|].
  destruct m as [|m]; [lia|].
  cbn [float_up_min_loop].
  rewrite Z.gtb_ltb. destruct (Z.ltb_spec 0 index); [|reflexivity].
  destruct (_ >=? 0); [reflexivity|].
  apply IH; lia.
Qed.

Lemma float_up_max_loop_fuel (n : nat) :
  forall (m : nat) (sz cnt : Z) (b : list node) (index : Z),
    0 <= index < Z.of_nat n -> index < Z.of_nat m ->
    float_up_max_loop zeroV cmp n sz cnt b index =
    float_up_max_loop zeroV cmp m sz cnt b index.
Proof.
  induction n as [|n IH]; intros m sz cnt b index Hn Hm; [lia|].
  destruct m as [|m]; [lia|].
  cbn [float_up_max_loop].
  rewrite Z.gtb_ltb. destruct (Z.ltb_spec 0 index); [|reflexivity].
  destruct (_ && _).
  - destruct (_ <? 0); [reflexivity|]. apply IH; lia.
  - destruct (_ <? 0); [reflexivity|]. apply IH; lia.
Qed.

(** [float_down_max] moves to a child with a larger index in every round and
    leaves when the node has no child: [sz - index] rounds are enough. *)
Lemma float_down_max_loop_fuel (n : nat) :
  forall (m : nat) (sz cnt : Z) (b : list node) (index : Z),
    sz < 9223372036854775808 -> 0 <= index <= sz ->
    sz - index <= Z.of_nat n -> sz - index <= Z.of_nat m ->
    float_down_max_loop zeroV cmp n sz cnt b index =
    float_down_max_loop zeroV cmp m sz cnt b index.
Proof.
  induction n as [|n IH]; intros m sz cnt b index Hsz Hidx Hn Hm.
  - destruct m as [|m]; [reflexivity|].
    cbn [float_down_max_loop].
    destruct (Z.geb_spec (wrap (2 * index + 1)) sz) as [_|Hlt]; [reflexivity|].
    rewrite wrap_small in Hlt by lia. lia.
  - destruct m as [|m]; cbn [float_down_max_loop];
      destruct (Z.geb_spec (wrap (2 * index + 1)) sz) as [_|Hlt];
      try reflexivity; rewrite wrap_small in Hlt by lia; [lia|].
    cbv zeta.
    set (child := if wrap (index * 2 + 2) <? sz then _ else _).
    assert (Hc : index < child < sz).
    { subst child. rewrite (wrap_small (index * 2 + 1)), (wrap_small (index * 2 + 2)) by lia.
      destruct (Z.ltb_spec (index * 2 + 2) sz); [|lia].
      destruct (_ && _); destruct (_ >? 0); lia. }
    assert (Hrec : forall b', float_down_max_loop zeroV cmp n sz cnt b' child =
                              float_down_max_loop zeroV cmp m sz cnt b' child).
    { intros b'. apply IH; lia. }
    rewrite !Hrec. reflexivity.
Qed.

Lemma float_down_min_loop_fuel (n : nat) :
  forall (m : nat) (sz cnt : Z) (b : list node) (index : Z),
    sz < 9223372036854775808 -> 0 <= index <= sz ->
    sz - index <= Z.of_nat n -> sz - index <= Z.of_nat m ->
    float_down_min_loop zeroV cmp n sz cnt b index =
    float_down_min_loop zeroV cmp m sz cnt b index.
Proof.
  induction n as [|n IH]; intros m sz cnt b index Hsz Hidx Hn Hm.
  - destruct m as [|m]; [reflexivity|].
    cbn [float_down_min_loop].
    destruct (Z.geb_spec (wrap (2 * index + 1)) sz) as [_|Hlt]; [reflexivity|].
    rewrite wrap_small in Hlt by lia. lia.
  - destruct m as [|m]; cbn [float_down_min_loop];
      destruct (Z.geb_spec (wrap (2 * index + 1)) sz) as [_|Hlt];
      try reflexivity; rewrite wrap_small in Hlt by lia; [lia|].
    cbv zeta.
    set (child := if wrap (index * 2 + 2) <? sz then _ else _).
    assert (Hc : index < child < sz).
    { subst child. rewrite (wrap_small (index * 2 + 1)), (wrap_small (index * 2 + 2)) by lia.
      destruct (Z.ltb_spec (index * 2 + 2) sz); [|lia].
      destruct (_ <? 0); lia. }
    assert (Hrec : forall b', float_down_min_loop zeroV cmp n sz cnt b' child =
                              float_down_min_loop zeroV cmp m sz cnt b' child).
    { intros b'. apply IH; lia. }
    rewrite !Hrec. reflexivity.
Qed.

(** The fuel that the four passes start with is enough: any larger fuel gives
    the same array. *)
Lemma ih_impl_float_up_min_fuel (h : heap) (m : nat) :
  1 <= size h <= UINT64_MAX -> size h <= Z.of_nat m ->
  buffer (ih_impl_float_up_min zeroV cmp h) =
  float_up_min_loop zeroV cmp m (buffer h) (size h - 1).
Proof.
  unfold UINT64_MAX. intros Hsz Hm.
  unfold ih_impl_float_up_min, with_buffer. cbn [buffer].
  rewrite wrap_small by lia. apply float_up_min_loop_fuel; lia.
Qed.

Lemma ih_impl_float_up_max_fuel (h : heap) (m : nat) :
  1 <= size h <= UINT64_MAX -> size h <= Z.of_nat m ->
  buffer (ih_impl_float_up_max zeroV cmp h) =
  float_up_max_loop zeroV cmp m (size h) (count h) (buffer h) (size h - 1).
Proof.
  unfold UINT64_MAX. intros Hsz Hm.
  unfold ih_impl_float_up_max, with_buffer. cbn [buffer].
  rewrite wrap_small by lia. apply float_up_max_loop_fuel; lia.
Qed.

Lemma ih_impl_float_down_max_fuel (h : heap) (m : nat) :
  0 <= size h < 9223372036854775808 -> size h <= Z.of_nat m ->
  buffer (ih_impl_float_down_max zeroV cmp h) =
  float_down_max_loop zeroV cmp m (size h) (count h) (buffer h) 0.
Proof.
  intros Hsz Hm.
  unfold ih_impl_float_down_max, with_buffer. cbn [buffer].
  apply float_down_max_loop_fuel; lia.
Qed.

Lemma ih_impl_float_down_min_fuel (h : heap) (m : nat) :
  0 <= size h < 9223372036854775808 -> size h <= Z.of_nat m ->
  buffer (ih_impl_float_down_min zeroV cmp h) =
  float_down_min_loop zeroV cmp m (size h) (count h) (buffer h) 0.
Proof.
  intros Hsz Hm.
  unfold ih_impl_float_down_min, with_buffer. cbn [buffer].
  apply float_down_min_loop_fuel; lia.
Qed.

(** ** The float-down passes keep the array's length *)

Lemma length_float_down_max_loop (fuel : nat) :
  forall (sz cnt : Z) (b : list node) (index : Z),
    length (float_down_max_loop zeroV cmp fuel sz cnt b index) = length b.
Proof.
  induction fuel as [|fuel IH]; intros sz cnt b index; [reflexivity|].
  cbn [float_down_max_loop].
  destruct (_ >=? sz); [reflexivity|]. cbv zeta.
  destruct (_ && _); destruct (_ >=? 0); try reflexivity.
  - rewrite IH. in_range.
  - rewrite IH. destruct (_ >? 0); in_range.
Qed.

Lemma length_float_down_min_loop (fuel : nat) :
  forall (sz cnt : Z) (b : list node) (index : Z),
    length (float_down_min_loop zeroV cmp fuel sz cnt b index) = length b.
Proof.
  induction fuel as [|fuel IH]; intros sz cnt b index; [reflexivity|].
  cbn [float_down_min_loop].
  destruct (_ >=? sz); [reflexivity|]. cbv zeta.
  destruct (_ <? 0); [reflexivity|].
  rewrite IH. destruct (_ || _); [destruct (_ >? 0)|]; in_range.
Qed.

(** ** Removing the only element *)

(** Both removals clear the root and decrement [count] when the heap holds
    one element, and leave [size] as it is. *)
Lemma remove_single_keeps_size (h : heap) :
  count h = 1 ->
  size (snd (ih_remove_min zeroV cmp h)) = size h /\
  count (snd (ih_remove_min zeroV cmp h)) = 0 /\
  size (snd (ih_remove_max zeroV cmp h)) = size h /\
  count (snd (ih_remove_max zeroV cmp h)) = 0.
Proof.
  intros Hone. unfold ih_remove_min, ih_remove_max, ih_empty, ih_count.
  rewrite Hone. cbn. repeat split; reflexivity.
Qed.

(** ** Updating the extremes *)

Lemma node_at_root_two_writes (b : list node) (k1 k2 : Z) (v1 v2 : V) :
  (0 < length b)%nat ->
  node_at (set_data_at (set_data_at b 0 k1 v1) 0 k2 v2) 0 =
  set_data (set_data (node_at b 0) k1 v1) k2 v2.
Proof.
  intros Hlen.
  rewrite node_at_set_data_at_same by (rewrite length_set_data_at; exact Hlen).
  rewrite node_at_set_data_at_same by exact Hlen. reflexivity.
Qed.

(** C9. On an empty heap [ih_update_max] and [ih_update_min] fail. With one
    element the root's MinHeap slot is overwritten and no float-down pass is
    run. With two or more elements the result is the matching float-down pass
    applied to a heap that differs from the old one in the root node only;
    for [ih_update_max] with a replacement smaller than the minimum that root
    holds the replacement in its low slot and the former minimum in its high
    slot, and for [ih_update_min] with a replacement greater than the maximum
    it holds the former maximum in its low slot and the replacement in its
    high slot; otherwise the replacement simply takes the slot of the extreme
    it replaces. *)
Theorem update_swaps_at_root (h : heap) (element : V) :
  (0 < length (buffer h))%nat ->
  let low := data (node_at (buffer h) 0) 0 in
  let high := data (node_at (buffer h) 0) 1 in
  let framed (s : heap) :=
    capacity s = capacity h /\ size s = size h /\ count s = count h /\
    length (buffer s) = length (buffer h) /\
    forall i, 0 < i -> node_at (buffer s) i = node_at (buffer h) i in
  (count h = 0 ->
     ih_update_max zeroV cmp h element = (false, h) /\
     ih_update_min zeroV cmp h element = (false, h)) /\
  (count h = 1 ->
     ih_update_max zeroV cmp h element =
       (true, with_buffer h (set_data_at (buffer h) 0 0 element)) /\
     ih_update_min zeroV cmp h element =
       (true, with_buffer h (set_data_at (buffer h) 0 0 element))) /\
  (2 <= count h ->
     exists s_max s_min : heap,
       ih_update_max zeroV cmp h element = (true, ih_impl_float_down_max zeroV cmp s_max) /\
       ih_update_min zeroV cmp h element = (true, ih_impl_float_down_min zeroV cmp s_min) /\
       framed s_max /\ framed s_min /\
       (cmp element low < 0 -> node_at (buffer s_max) 0 = mk_node element low) /\
       (cmp element low >= 0 -> node_at (buffer s_max) 0 = mk_node low element) /\
       (cmp element high > 0 -> node_at (buffer s_min) 0 = mk_node high element) /\
       (cmp element high <= 0 -> node_at (buffer s_min) 0 = mk_node element high)).
Proof.
  intros Hlen low high framed.
  unfold ih_update_max, ih_update_min, ih_empty, ih_count.
  split; [|split].
  - intros ->. cbn. split; reflexivity.
  - intros ->. cbn. split; reflexivity.
  - intros Hcnt.
    destruct (Z.eqb_spec (count h) 0) as [|_]; [lia|].
    destruct (Z.eqb_spec (count h) 1) as [|_]; [lia|].
    fold low high.
    assert (Hframe : forall k1 k2 v1 v2,
               framed (with_buffer h (set_data_at (set_data_at (buffer h) 0 k1 v1) 0 k2 v2))).
    { intros k1 k2 v1 v2. unfold framed, with_buffer. cbn [buffer capacity size count].
      repeat split; try reflexivity; [in_range|].
      intros i Hi. rewrite !node_at_set_data_at_other by lia. reflexivity. }
    assert (Hframe1 : forall k v,
               framed (with_buffer h (set_data_at (buffer h) 0 k v))).
    { intros k v. unfold framed, with_buffer. cbn [buffer capacity size count].
      repeat split; try reflexivity; [in_range|].
      intros i Hi. rewrite !node_at_set_data_at_other by lia. reflexivity. }
    assert (Hroot : node_at (buffer h) 0 = mk_node low high).
    { subst low high. unfold data. cbn. destruct (node_at (buffer h) 0); reflexivity. }
    eexists (if cmp element low <? 0 then _ else _),
            (if cmp element high >? 0 then _ else _).
    split; [|split; [|split; [|split; [|split; [|split; [|split]]]]]].
    + destruct (cmp element low <? 0); reflexivity.
    + destruct (cmp element high >? 0); reflexivity.
    + destruct (cmp element low <? 0); [apply Hframe|apply Hframe1].
    + destruct (cmp element high >? 0); [apply Hframe|apply Hframe1].
    + intros Hlt. destruct (Z.ltb_spec (cmp element low) 0); [|lia].
      cbn [buffer with_buffer]. rewrite node_at_root_two_writes by exact Hlen.
      rewrite Hroot. reflexivity.
    + intros Hge. destruct (Z.ltb_spec (cmp element low) 0); [lia|].
      cbn [buffer with_buffer]. rewrite node_at_set_data_at_same by exact Hlen.
      rewrite Hroot. reflexivity.
    + intros Hgt. destruct (Z.gtb_spec (cmp element high) 0); [|lia].
      cbn [buffer with_buffer]. rewrite node_at_root_two_writes by exact Hlen.
      rewrite Hroot. reflexivity.
    + intros Hle. destruct (Z.gtb_spec (cmp element high) 0); [lia|].
      cbn [buffer with_buffer]. rewrite node_at_set_data_at_same by exact Hlen.
      rewrite Hroot. reflexivity.
Qed.

(** C10. On a heap that is not empty [ih_update_min] and [ih_update_max]
    return [true] and leave [count], [size], [capacity] and the number of
    nodes of the array as they were. *)
Theorem update_keeps_fields (h : heap) (element : V) :
  count h <> 0 ->
  (fst (ih_update_min zeroV cmp h element) = true /\
   count (snd (ih_update_min zeroV cmp h element)) = count h /\
   size (snd (ih_update_min zeroV cmp h element)) = size h /\
   capacity (snd (ih_update_min zeroV cmp h element)) = capacity h /\
   length (buffer (snd (ih_update_min zeroV cmp h element))) = length (buffer h)) /\
  (fst (ih_update_max zeroV cmp h element) = true /\
   count (snd (ih_update_max zeroV cmp h element)) = count h /\
   size (snd (ih_update_max zeroV cmp h element)) = size h /\
   capacity (snd (ih_update_max zeroV cmp h element)) = capacity h /\
   length (buffer (snd (ih_update_max zeroV cmp h element))) = length (buffer h)).
Proof.
  intros Hne.
  unfold ih_update_min, ih_update_max, ih_empty, ih_count,
    ih_impl_float_down_min, ih_impl_float_down_max, with_buffer.
  destruct (Z.eqb_spec (count h) 0) as [|_]; [contradiction|].
  split.
  - destruct (count h =? 1); [|destruct (_ >? 0)];
      cbn [fst snd buffer capacity size count];
      rewrite ?length_float_down_min_loop, ?length_set_data_at; repeat split; reflexivity.
  - destruct (count h =? 1); [|destruct (_ <? 0)];
      cbn [fst snd buffer capacity size count];
      rewrite ?length_float_down_max_loop, ?length_set_data_at; repeat split; reflexivity.
Qed.

(** ** Growing on insert *)

Lemma insert_capacity (realloc : allocator V) (h h' : heap) (element : V) (r : bool) :
  ih_insert zeroV cmp realloc h element = (r, h') ->
  capacity h' =
  capacity (snd (if ih_full h then ih_resize zeroV realloc h (wrap (ih_capacity h * 4))
                 else (true, h))).
Proof.
  unfold ih_insert.
  destruct (if ih_full h then _ else _) as [resized h1]. cbn [snd].
  destruct resized; cbn [negb]; [|intros [= _ <-]; reflexivity].
  unfold ih_count, ih_impl_float_up_min, ih_impl_float_up_max, with_buffer.
  destruct (count h1 mod 2 =? 0); [|destruct (_ >? 0)];
    cbn [buffer capacity size count];
    (destruct (_ <=? 2); [|destruct (_ >? 0); [|destruct (_ <? 0)]]);
    intros [= _ <-]; reflexivity.
Qed.

(** C8, as the code has it. When [ih_insert] succeeds on a full heap, the
    capacity reported afterwards is twice the capacity reported before:
    [ih_resize] is asked for four times the number of nodes, and halves what
    it is asked for because a node holds two elements. *)
Theorem insert_full_doubles_capacity
  (realloc : allocator V) (h h' : heap) (element : V) :
  0 <= ih_capacity h -> ih_capacity h * 4 <= UINT64_MAX ->
  ih_full h = true ->
  ih_insert zeroV cmp realloc h element = (true, h') ->
  ih_capacity h' = 2 * ih_capacity h.
Proof.
  unfold UINT64_MAX. intros Hcap Hmax Hfull Hins.
  pose proof Hins as Hc. apply insert_capacity in Hc.
  unfold ih_insert in Hins. rewrite Hfull in Hins, Hc.
  unfold ih_capacity in *. rewrite Hc.
  rewrite wrap_small in * by lia.
  unfold ih_resize, ih_capacity in *.
  destruct (Z.eqb_spec (capacity h) (capacity h * 4)) as [Heq|Hne].
  { cbn [snd]. lia. }
  destruct (capacity h * 4 <? ih_count h); [discriminate|].
  replace (capacity h * 4 mod 2 =? 0) with true in * by (symmetry; apply Z.eqb_eq; lia).
  destruct (realloc (buffer h) (capacity h * 4 / 2)); [|discriminate].
  cbn [snd capacity]. lia.
Qed.

(** ** The root bounds every stored element *)

Section Order.

Hypothesis cmp_antisym : forall a b, cmp a b < 0 <-> 0 < cmp b a.
Hypothesis cmp_trans : forall a b c, cmp a b <= 0 -> cmp b c <= 0 -> cmp a c <= 0.

Lemma cmp_refl (a : V) : cmp a a = 0.
Proof.
  pose proof (cmp_antisym a a) as [H1 H2].
  destruct (Z.lt_trichotomy (cmp a a) 0) as [Hlt|[Heq|Hgt]]; [|exact Heq|].
  - specialize (H1 Hlt). lia.
  - specialize (H2 Hgt). lia.
Qed.

Lemma le_refl (a : V) : le a a.
Proof. unfold IntervalHeap.le. rewrite cmp_refl. lia. Qed.

Lemma lt_le (a b : V) : cmp a b < 0 -> le a b.
Proof. unfold IntervalHeap.le. lia. Qed.

Lemma gt_le (a b : V) : 0 < cmp a b -> le b a.
Proof. intros H. apply lt_le. apply cmp_antisym. exact H. Qed.

Lemma ge_le (a b : V) : 0 <= cmp a b -> le b a.
Proof.
  intros H. unfold IntervalHeap.le.
  destruct (Z_lt_le_dec 0 (cmp b a)) as [Hpos|Hle]; [|exact Hle].
  pose proof (proj2 (cmp_antisym a b) Hpos). lia.
Qed.

Lemma le_trans (a b c : V) : le a b -> le b c -> le a c.
Proof. apply cmp_trans. Qed.

Lemma float_up_min_loop_ok (fuel : nat) :
  forall (b : list node) (index cnt : Z),
    2 <= cnt -> cnt <= 2 * Z.of_nat (length b) ->
    occupied cnt index 0 -> index < Z.of_nat fuel ->
    low_ok b cnt index 0 -> high_ok b cnt (-1) 0 ->
    let b' := float_up_min_loop zeroV cmp fuel b index in
    length b' = length b /\ low_ok b' cnt (-1) 0 /\ high_ok b' cnt (-1) 0.
Proof.
  induction fuel as [|fuel IH]; intros b index cnt Hcnt Hlen Hocc Hfuel Hlow Hhigh.
  { destruct Hocc as (? & _ & ?). lia. }
  cbn [float_up_min_loop].
  destruct Hocc as (Hidx & _ & Hin).
  assert (Hroot : forall i k, occupied cnt i k -> (i = 0 /\ k = 0) \/ ~ (i = 0 /\ k = 0)) by (intros; lia).
  rewrite Z.gtb_ltb. destruct (Z.ltb_spec 0 index) as [Hpos|Hzero].
  2:{ cbv zeta. split; [reflexivity|]. split; [|exact Hhigh].
      intros i k Hik _. destruct (Hroot i k Hik) as [[-> ->]|Hne].
      - apply le_refl.
      - apply Hlow; [exact Hik|]. intros [-> ->]. apply Hne. lia. }
  set (P_index := (index - 1) / 2).
  assert (HP : 0 <= P_index < index) by (subst P_index; lia).
  assert (HlowP : le (data (node_at b 0) 0) (data (node_at b P_index) 0)).
  { destruct (Z.eq_dec P_index 0) as [->|HP0]; [apply le_refl|].
    apply Hlow; [unfold occupied; lia|lia]. }
  assert (HP0 : P_index = 0 -> forall i k, occupied cnt i k -> ~ (i = index /\ k = 0) ->
                 le (data (node_at b P_index) 0) (data (node_at b i) k)).
  { intros E. rewrite E. exact Hlow. }
  rewrite Z.geb_leb.
  destruct (Z.leb_spec 0 (cmp (data (node_at b index) 0) (data (node_at b P_index) 0)))
    as [Hge|Hlt].
  { cbv zeta. split; [reflexivity|]. split; [|exact Hhigh].
    intros i k Hik _.
    destruct (Z.eq_dec i index) as [->|Hi].
    - destruct (Z.eq_dec k 0) as [->|Hk].
      + eapply le_trans; [exact HlowP|]. apply ge_le. exact Hge.
      + apply Hlow; [exact Hik|lia].
    - apply Hlow; [exact Hik|lia]. }
  cbv zeta.
  match goal with
  | |- context [float_up_min_loop _ _ _ ?b2 _] =>
      destruct (IH b2 P_index cnt) as (Hl & Hlo & Hhi)
  end.
  - exact Hcnt.
  - in_range.
  - unfold occupied. lia.
  - lia.
  - intros i k Hik Hne. destruct Hik as (Hi0 & Hk & Hik).
    read_slots. split_eqb; try lia.
    all: try (apply lt_le; exact Hlt).
    all: try (apply Hlow; [unfold occupied; lia|lia]).
    all: try (eapply le_trans; [apply lt_le; exact Hlt|];
              apply HP0; [lia|unfold occupied; lia|lia]).
  - intros i k Hik _. destruct Hik as (Hi0 & Hk & Hik).
    read_slots. split_eqb; try lia.
    all: try (apply Hhigh; [unfold occupied; lia|lia]).
  - rewrite Hl. split; [in_range|]. split; assumption.
Qed.

Lemma float_up_max_loop_ok (fuel : nat) :
  forall (b : list node) (index sz cnt : Z),
    2 <= cnt -> cnt <= 2 * Z.of_nat (length b) ->
    sz < 9223372036854775808 ->
    cnt = 2 * sz \/ cnt = 2 * sz - 1 ->
    0 <= index <= sz - 1 -> index < Z.of_nat fuel ->
    high_ok b cnt index (floating_slot sz cnt index) -> low_ok b cnt (-1) 0 ->
    let b' := float_up_max_loop zeroV cmp fuel sz cnt b index in
    length b' = length b /\ low_ok b' cnt (-1) 0 /\ high_ok b' cnt (-1) 0.
Proof.
  induction fuel as [|fuel IH];
    intros b index sz cnt Hcnt Hlen Hsz Hshape Hidx Hfuel Hhigh Hlow.
  { lia. }
  cbn [float_up_max_loop].
  rewrite (wrap_small (sz - 1)) by lia.
  rewrite Z.gtb_ltb. destruct (Z.ltb_spec 0 index) as [Hpos|Hzero].
  2:{ cbv zeta. split; [reflexivity|]. split; [exact Hlow|].
      assert (index = 0) as -> by lia.
      assert (Hfs : floating_slot sz cnt 0 = 1).
      { unfold floating_slot. destruct (Z.eqb_spec 0 (sz - 1)); [|reflexivity].
        destruct (Z.eqb_spec (cnt mod 2) 0); [reflexivity|lia]. }
      rewrite Hfs in Hhigh.
      intros i k Hik _.
      destruct (Z.eq_dec i 0) as [->|Hi]; [destruct (Z.eq_dec k 1) as [->|Hk]|].
      - apply le_refl.
      - apply Hhigh; [exact Hik|lia].
      - apply Hhigh; [exact Hik|lia]. }
  set (P_index := (index - 1) / 2).
  assert (HP : 0 <= P_index < index) by (subst P_index; lia).
  assert (HfsP : floating_slot sz cnt P_index = 1).
  { unfold floating_slot. destruct (Z.eqb_spec P_index (sz - 1)); [lia|reflexivity]. }
  assert (Hstep : forall s, s = 0 \/ s = 1 -> occupied cnt index s ->
            high_ok b cnt index s ->
            let r :=
              if cmp (data (node_at b index) s) (data (node_at b P_index) 1) <? 0 then b
              else float_up_max_loop zeroV cmp fuel sz cnt
                     (set_data_at
                        (set_data_at b index s (data (node_at b P_index) 1))
                        P_index 1 (data (node_at b index) s))
                     P_index in
            length r = length b /\ low_ok r cnt (-1) 0 /\ high_ok r cnt (-1) 0).
  { intros s Hs Hocc Hhi.
    destruct Hocc as (_ & _ & Hin).
    assert (HhiP : le (data (node_at b P_index) 1) (data (node_at b 0) 1)).
    { destruct (Z.eq_dec P_index 0) as [E|HP0]; [rewrite E; apply le_refl|].
      apply Hhi; [unfold occupied; lia|lia]. }
    assert (HP0 : P_index = 0 -> forall i k, occupied cnt i k -> ~ (i = index /\ k = s) ->
                   le (data (node_at b i) k) (data (node_at b P_index) 1)).
    { intros E. rewrite E. exact Hhi. }
    destruct (Z.ltb_spec (cmp (data (node_at b index) s) (data (node_at b P_index) 1)) 0)
      as [Hlt|Hge]; cbv zeta.
    { split; [reflexivity|]. split; [exact Hlow|].
      intros i k Hik _.
      destruct (Z.eq_dec i index) as [->|Hi]; [destruct (Z.eq_dec k s) as [->|Hk]|].
      - eapply le_trans; [apply lt_le; exact Hlt|exact HhiP].
      - apply Hhi; [exact Hik|lia].
      - apply Hhi; [exact Hik|lia]. }
    match goal with
    | |- context [float_up_max_loop _ _ _ _ _ ?b2 _] =>
        destruct (IH b2 P_index sz cnt) as (Hl & Hlo & Hh)
    end.
    - exact Hcnt.
    - in_range.
    - exact Hsz.
    - exact Hshape.
    - lia.
    - lia.
    - rewrite HfsP. intros i k Hik Hne. destruct Hik as (Hi0 & Hk & Hik).
      read_slots. split_eqb; try lia.
      all: try (apply ge_le; exact Hge).
      all: try (apply Hhi; [unfold occupied; lia|lia]).
      all: try (eapply le_trans; [|apply ge_le; exact Hge];
                apply HP0; [lia|unfold occupied; lia|lia]).
    - intros i k Hik _. destruct Hik as (Hi0 & Hk & Hik).
      read_slots. split_eqb; try lia.
      all: try (apply Hlow; [unfold occupied; lia|lia]).
    - rewrite Hl. split; [in_range|]. split; assumption. }
  unfold floating_slot in Hhigh.
  destruct ((index =? sz - 1) && negb (cnt mod 2 =? 0)) eqn:Hodd.
  - apply (Hstep 0); [lia| |exact Hhigh].
    unfold occupied. lia.
  - apply (Hstep 1); [lia| |exact Hhigh].
    unfold occupied.
    destruct (Z.eqb_spec index (sz - 1)); cbn [andb] in Hodd; [|lia].
    destruct (Z.eqb_spec (cnt mod 2) 0); cbn [negb] in Hodd; [lia|discriminate].
Qed.

(** The last step of [ih_insert]: the element sits in slot [pk] of the last
    node and one of the two float-up passes, or none, is run. *)
Lemma insert_float_ok (b : list node) (cap sz cnt pk : Z) (element : V) :
  2 < cnt -> cnt <= 2 * Z.of_nat (length b) ->
  sz < 9223372036854775808 ->
  cnt = 2 * sz \/ cnt = 2 * sz - 1 ->
  pk = 0 \/ pk = 1 ->
  occupied cnt (sz - 1) pk ->
  data (node_at b (sz - 1)) pk = element ->
  low_ok b cnt (sz - 1) pk -> high_ok b cnt (sz - 1) pk ->
  (pk = 1 -> le (data (node_at b (sz - 1)) 0) element) ->
  (pk = 0 -> cnt = 2 * sz -> le element (data (node_at b (sz - 1)) 1)) ->
  (cnt = 2 * sz - 1 -> pk = 0) ->
  let h := mk_heap b cap sz cnt in
  let parent := wrap (size h - 1) / 2 in
  let r :=
    if cmp (data (node_at (buffer h) parent) 0) element >? 0 then
      ih_impl_float_up_min zeroV cmp h
    else if cmp (data (node_at (buffer h) parent) 1) element <? 0 then
      ih_impl_float_up_max zeroV cmp h
    else h in
  length (buffer r) = length b /\ capacity r = cap /\ size r = sz /\ count r = cnt /\
  low_ok (buffer r) cnt (-1) 0 /\ high_ok (buffer r) cnt (-1) 0.
Proof.
  intros Hcnt Hlen Hsz Hshape Hpk Hocc He Hlow Hhigh Hlo1 Hhi0 Hodd.
  cbn [buffer size].
  rewrite (wrap_small (sz - 1)) by lia.
  set (w := (sz - 1) / 2).
  assert (Hw : 0 <= w < sz - 1) by (subst w; lia).
  assert (Hw0 : occupied cnt w 0) by (unfold occupied; lia).
  assert (Hw1 : occupied cnt w 1) by (unfold occupied; lia).
  assert (Hne : forall k, ~ (w = sz - 1 /\ k = pk)) by lia.
  pose proof (Hlow w 0 Hw0 (Hne 0)) as Hlw0.
  pose proof (Hhigh w 0 Hw0 (Hne 0)) as Hhw0.
  pose proof (Hhigh w 1 Hw1 (Hne 1)) as Hhw1.
  (* the slots of the last node *)
  assert (Hlast_low : le element (data (node_at b 0) 1) ->
                      high_ok b cnt (-1) 0).
  { intros Hle i k Hik _.
    destruct (Z.eq_dec i (sz - 1)) as [Hi|Hi]; [destruct (Z.eq_dec k pk) as [Hk|Hk]|].
    - subst i k. rewrite He. exact Hle.
    - apply Hhigh; [exact Hik|lia].
    - apply Hhigh; [exact Hik|lia]. }
  assert (Hlast_high : le (data (node_at b 0) 0) element ->
                       low_ok b cnt (-1) 0).
  { intros Hle i k Hik _.
    destruct (Z.eq_dec i (sz - 1)) as [Hi|Hi]; [destruct (Z.eq_dec k pk) as [Hk|Hk]|].
    - subst i k. rewrite He. exact Hle.
    - apply Hlow; [exact Hik|lia].
    - apply Hlow; [exact Hik|lia]. }
  rewrite Z.gtb_ltb.
  destruct (Z.ltb_spec 0 (cmp (data (node_at b w) 0) element)) as [Hmin|Hnmin].
  { (* MinHeap insert *)
    assert (Hel : le element (data (node_at b 0) 1)).
    { eapply le_trans; [apply gt_le; exact Hmin|exact Hhw0]. }
    unfold ih_impl_float_up_min. cbn [buffer size capacity count with_buffer].
    rewrite (wrap_small (sz - 1)) by lia.
    destruct (float_up_min_loop_ok (Z.to_nat sz) b (sz - 1) cnt) as (Hl & Hlo & Hhi);
      try lia.
    - unfold occupied. lia.
    - intros i k Hik Hnik.
      destruct (Z.eq_dec i (sz - 1)) as [Hi|Hi].
      + subst i. assert (k = 1) as -> by (destruct Hik as (_ & ? & _); lia).
        destruct Hpk as [->| ->].
        * apply Hlow; [exact Hik|lia].
        * rewrite He. eapply le_trans; [|apply Hlo1; reflexivity].
          apply Hlow; [unfold occupied; lia|lia].
      + apply Hlow; [exact Hik|lia].
    - apply Hlast_low. exact Hel.
    - repeat split; assumption. }
  assert (Hle : le (data (node_at b 0) 0) element).
  { eapply le_trans; [exact Hlw0|exact Hnmin]. }
  destruct (Z.ltb_spec (cmp (data (node_at b w) 1) element) 0) as [Hmax|Hnmax].
  { (* MaxHeap insert *)
    unfold ih_impl_float_up_max. cbn [buffer size capacity count with_buffer].
    rewrite (wrap_small (sz - 1)) by lia.
    destruct (float_up_max_loop_ok (Z.to_nat sz) b (sz - 1) sz cnt) as (Hl & Hlo & Hhi);
      try lia.
    - unfold floating_slot. rewrite Z.eqb_refl. cbn [andb].
      destruct (Z.eqb_spec (cnt mod 2) 0) as [Heven|Hoddc]; cbn [negb].
      + intros i k Hik Hnik.
        destruct (Z.eq_dec i (sz - 1)) as [Hi|Hi].
        * subst i. assert (k = 0) as -> by (destruct Hik as (_ & ? & _); lia).
          destruct Hpk as [->| ->].
          -- rewrite He. eapply le_trans; [apply Hhi0; [reflexivity|lia]|].
             apply Hhigh; [unfold occupied; lia|lia].
          -- apply Hhigh; [exact Hik|lia].
        * apply Hhigh; [exact Hik|lia].
      + assert (pk = 0) as Hpk0 by (apply Hodd; lia). rewrite Hpk0 in Hhigh. exact Hhigh.
    - apply Hlast_high. exact Hle.
    - repeat split; assumption. }
  (* no float up required *)
  cbn [buffer size capacity count].
  repeat split; try reflexivity.
  - apply Hlast_high. exact Hle.
  - apply Hlast_low. eapply le_trans; [apply ge_le; exact Hnmax|exact Hhw1].
Qed.

Lemma float_choice {A : Type} (c1 c2 : bool) (x y z r : A) :
  (if c1 then (true, x) else if c2 then (true, y) else (true, z)) = (true, r) ->
  r = if c1 then x else if c2 then y else z.
Proof. destruct c1, c2; congruence. Qed.

(** [ih_insert] keeps a heap well formed and its root bounding every element. *)
Lemma insert_ok (realloc : allocator V) (h h' : heap) (element : V) :
  realloc_contract realloc -> well_formed h -> root_bounds h ->
  ih_insert zeroV cmp realloc h element = (true, h') ->
  well_formed h' /\ root_bounds h' /\ count h' = count h + 1.
Proof.
  intros Hre Hwf Hrb Hins. unfold ih_insert in Hins.
  destruct (if ih_full h then _ else _) as [resized h1] eqn:Hstep.
  destruct resized; cbn [negb] in Hins; [|discriminate].
  destruct (insert_resize_ok _ _ _ Hre Hwf Hstep)
    as (Hwf1 & Hsz1 & Hcnt1 & Hkeep & Hfree & _).
  assert (Hrb1 : root_bounds h1).
  { unfold IntervalHeap.root_bounds. rewrite Hcnt1. intros H2.
    destruct (Hrb H2) as (Hlo & Hhi).
    destruct Hwf as (_ & _ & Hsz & Hcnt0 & Hshape).
    split; intros i k Hik Hne; pose proof Hik as (Hi0 & Hk & Hlt);
      rewrite !Hkeep by lia; [apply Hlo|apply Hhi]; assumption. }
  rewrite <- Hcnt1. clear Hstep Hkeep Hrb Hwf Hsz1 Hcnt1 h Hre realloc.
  destruct h1 as [b cap sz cnt].
  destruct Hwf1 as (Hcap & Hlen & Hsz & Hcnt0 & Hshape).
  unfold IntervalHeap.root_bounds in Hrb1.
  unfold ih_count, with_buffer in Hins.
  cbn [buffer capacity size count] in *.
  destruct (Z.eqb_spec (cnt mod 2) 0) as [Heven|Hoddc];
    cbn [buffer capacity size count] in Hins.
  - (* occupying a new node *)
    assert (Hcs : cnt = 2 * sz) by lia.
    specialize (Hfree Hcs).
    rewrite (wrap_small (sz + 1)), (wrap_small (cnt + 1)) in Hins by lia.
    set (b2 := set_data_at (set_data_at b sz 0 element) sz 1 zeroV) in *.
    assert (Hlen2 : length b2 = length b) by (subst b2; in_range).
    assert (Hrd : forall i k, 0 <= i -> data (node_at b2 i) k =
              if (i =? sz) && Bool.eqb (k =? 0) (1 =? 0) then zeroV
              else if (i =? sz) && Bool.eqb (k =? 0) (0 =? 0) then element
              else data (node_at b i) k).
    { intros i k Hi. subst b2. read_slots. reflexivity. }
    destruct (Z.leb_spec (cnt + 1) 2) as [Hsmall|Hbig].
    { injection Hins as <-. unfold well_formed, IntervalHeap.root_bounds.
      cbn [buffer capacity size count].
      repeat split; try lia. }
    pose proof (insert_float_ok b2 cap (sz + 1) (cnt + 1) 0 element) as Hfl.
    cbv zeta in Hfl. cbn [buffer capacity size count] in Hfl.
    destruct Hrb1 as (Hlo & Hhi); [lia|].
    destruct Hfl as (Hl & Hc & Hs & Hn & Hlo' & Hhi'); try lia.
    + unfold occupied. lia.
    + rewrite Hrd by lia. split_eqb; try lia. reflexivity.
    + intros i k Hik Hne. destruct Hik as (Hi0 & Hk & Hlt).
      rewrite !Hrd by lia. split_eqb; try lia.
      apply Hlo; [unfold occupied; lia|lia].
    + intros i k Hik Hne. destruct Hik as (Hi0 & Hk & Hlt).
      rewrite !Hrd by lia. split_eqb; try lia.
      apply Hhi; [unfold occupied; lia|lia].
    + apply float_choice in Hins. rewrite Hins.
      unfold well_formed, IntervalHeap.root_bounds. rewrite Hl, Hc, Hs, Hn.
      repeat split; try lia; assumption.
  - (* completing the last node *)
    assert (Hcs : cnt = 2 * sz - 1) by lia.
    rewrite !(wrap_small (sz - 1)) in Hins by lia.
    set (l := data (node_at b (sz - 1)) 0) in *.
    set (b2 := if cmp l element >? 0
               then set_data_at (set_data_at b (sz - 1) 1 l) (sz - 1) 0 element
               else set_data_at b (sz - 1) 1 element).
    set (pk := if cmp l element >? 0 then 0 else 1).
    assert (Hh : (if cmp l element >? 0
                  then mk_heap (set_data_at (set_data_at b (sz - 1) 1 l) (sz - 1) 0 element)
                         cap sz cnt
                  else mk_heap (set_data_at b (sz - 1) 1 element) cap sz cnt)
                 = mk_heap b2 cap sz cnt).
    { subst b2. destruct (cmp l element >? 0); reflexivity. }
    rewrite Hh in Hins. cbn [buffer capacity size count] in Hins. clear Hh.
    rewrite !(wrap_small (cnt + 1)), !(wrap_small (sz - 1)) in Hins by lia.
    assert (Hlen2 : length b2 = length b).
    { subst b2. destruct (cmp l element >? 0); in_range. }
    assert (Hpk : pk = 0 \/ pk = 1) by (subst pk; destruct (cmp l element >? 0); lia).
    assert (Hrd : forall i k, 0 <= i -> k = 0 \/ k = 1 -> data (node_at b2 i) k =
              if (i =? sz - 1) && (k =? pk) then element
              else if (i =? sz - 1) then l
              else data (node_at b i) k).
    { intros i k Hi Hk. subst b2 pk l. destruct (cmp _ element >? 0).
      - read_slots. split_eqb; try lia; try reflexivity.
      - read_slots. split_eqb; try lia; try reflexivity; subst; reflexivity. }
    assert (Hord : le (data (node_at b2 (sz - 1)) 0) (data (node_at b2 (sz - 1)) 1)).
    { rewrite !Hrd by lia. subst pk. rewrite Z.gtb_ltb.
      destruct (Z.ltb_spec 0 (cmp l element)) as [Hgt|Hngt]; split_eqb; try lia.
      - apply gt_le. exact Hgt.
      - exact Hngt. }
    destruct (Z.leb_spec (cnt + 1) 2) as [Hsmall|Hbig].
    { injection Hins as <-. unfold well_formed, IntervalHeap.root_bounds.
      cbn [buffer capacity size count].
      assert (sz = 1) as -> by lia.
      repeat split; try lia.
      - intros i k (Hi0 & Hk & Hlt) _. assert (i = 0) as -> by lia.
        destruct Hk as [->| ->]; [apply le_refl|exact Hord].
      - intros i k (Hi0 & Hk & Hlt) _. assert (i = 0) as -> by lia.
        destruct Hk as [->| ->]; [exact Hord|apply le_refl]. }
    pose proof (insert_float_ok b2 cap sz (cnt + 1) pk element) as Hfl.
    cbv zeta in Hfl. cbn [buffer capacity size count] in Hfl.
    rewrite !(wrap_small (sz - 1)) in Hfl by lia.
    destruct Hrb1 as (Hlo & Hhi); [lia|].
    destruct Hfl as (Hl & Hc & Hs & Hn & Hlo' & Hhi'); try lia.
    + unfold occupied. lia.
    + rewrite Hrd by lia. split_eqb; try lia. reflexivity.
    + intros i k Hik Hne. destruct Hik as (Hi0 & Hk & Hlt).
      rewrite !Hrd by lia. split_eqb; try lia.
      all: apply Hlo; unfold occupied; lia.
    + intros i k Hik Hne. destruct Hik as (Hi0 & Hk & Hlt).
      rewrite !Hrd by lia. split_eqb; try lia.
      all: apply Hhi; unfold occupied; lia.
    + intros ->. rewrite (Hrd (sz - 1) 0), (Hrd (sz - 1) 1) in Hord by lia.
      rewrite (Hrd (sz - 1) 0) by lia.
      revert Hord. split_eqb; try lia. tauto.
    + intros -> _. rewrite (Hrd (sz - 1) 0), (Hrd (sz - 1) 1) in Hord by lia.
      rewrite (Hrd (sz - 1) 1) by lia.
      revert Hord. split_eqb; try lia. tauto.
    + apply float_choice in Hins. rewrite Hins.
      unfold well_formed, IntervalHeap.root_bounds. rewrite Hl, Hc, Hs, Hn.
      repeat split; try lia; assumption.
Qed.

Lemma new_ok (cap : Z) (f_val malloc_ok calloc_ok : bool) (h : heap) :
  0 <= cap <= UINT64_MAX ->
  ih_new zeroV cap f_val malloc_ok calloc_ok = Some h ->
  well_formed h /\ count h = 0 /\ size h = 0.
Proof.
  unfold ih_new, UINT64_MAX. intros Hcap Hnew.
  destruct (Z.eqb_spec cap 0); cbn [orb] in Hnew; [discriminate|].
  destruct (Z.eqb_spec cap 18446744073709551615); [discriminate|].
  destruct f_val; cbn [negb] in Hnew; [|discriminate].
  destruct malloc_ok; cbn [negb] in Hnew; [|discriminate].
  destruct calloc_ok; cbn [negb] in Hnew; [|discriminate].
  injection Hnew as <-. unfold well_formed. cbn [buffer capacity size count].
  rewrite length_replicate.
  rewrite (wrap_small (cap + 1)) by lia.
  destruct (Z.eqb_spec (cap mod 2) 0); repeat split; lia.
Qed.

Lemma inserted_invariant (h : heap) :
  inserted zeroV cmp h -> well_formed h /\ root_bounds h.
Proof.
  induction 1 as [cap f m c h Hcap Hnew|realloc h h' element Hre _ (Hwf & Hrb) Hins].
  - destruct (new_ok _ _ _ _ _ Hcap Hnew) as (Hwf & Hcnt & _).
    split; [exact Hwf|]. unfold IntervalHeap.root_bounds. lia.
  - destruct (insert_ok _ _ _ _ Hre Hwf Hrb Hins) as (Hwf' & Hrb' & _).
    split; assumption.
Qed.

(** C1. After every successful insert in a run of inserts that starts from a
    newly created heap, [ih_min] and [ih_max] both succeed, the minimum they
    report is not greater than any stored element and the maximum is not
    smaller than any stored element. The comparator is a total preorder:
    swapping its arguments swaps its sign, and "not greater" is transitive. *)
Theorem insert_peek_bounds (realloc : allocator V) (h h' : heap) (element : V) :
  realloc_contract realloc ->
  inserted zeroV cmp h ->
  ih_insert zeroV cmp realloc h element = (true, h') ->
  exists mn mx : V,
    ih_min zeroV h' = Some mn /\ ih_max zeroV h' = Some mx /\
    forall i : Z, 0 <= i < ih_count h' ->
      cmp mn (element_at zeroV (buffer h') i) <= 0 /\
      cmp mx (element_at zeroV (buffer h') i) >= 0.
Proof.
  intros Hre Hreach Hins.
  destruct (inserted_invariant h Hreach) as (Hwf & Hrb).
  destruct (insert_ok _ _ _ _ Hre Hwf Hrb Hins) as (Hwf' & Hrb' & Hcnt).
  destruct Hwf as (_ & _ & _ & Hcnt0 & _).
  unfold ih_min, ih_max, ih_empty, ih_count, element_at.
  destruct (Z.eqb_spec (count h') 0) as [|_]; [lia|].
  destruct (Z.eqb_spec (count h') 1) as [Hone|Hmore].
  - exists (data (node_at (buffer h') 0) 0), (data (node_at (buffer h') 0) 0).
    split; [reflexivity|]. split; [reflexivity|].
    intros i Hi. assert (i = 0) as -> by lia.
    change (0 / 2) with 0. change (0 mod 2) with 0.
    pose proof (cmp_refl (data (node_at (buffer h') 0) 0)) as Hr. lia.
  - exists (data (node_at (buffer h') 0) 0), (data (node_at (buffer h') 0) 1).
    split; [reflexivity|]. split; [reflexivity|].
    destruct Hrb' as (Hlo & Hhi); [lia|].
    intros i Hi.
    assert (Hocc : occupied (count h') (i / 2) (i mod 2)) by (unfold occupied; lia).
    split.
    + apply Hlo; [exact Hocc|lia].
    + assert (Hle : le (data (node_at (buffer h') (i / 2)) (i mod 2))
                       (data (node_at (buffer h') 0) 1)) by (apply Hhi; [exact Hocc|lia]).
      unfold IntervalHeap.le in Hle.
      destruct (Z_lt_le_dec (cmp (data (node_at (buffer h') 0) 1)
                                 (data (node_at (buffer h') (i / 2)) (i mod 2))) 0)
        as [Hneg|Hnn]; [|lia].
      apply cmp_antisym in Hneg. lia.
Qed.

End Order.

End Comparator.

End Properties.

(** * Properties of the whole collection *)

Section Collection.

Context {V : Type}.
Variable zeroV : V.

#[local] Abbreviation node := (intervalheap_node V).
#[local] Abbreviation heap := (intervalheap V).
#[local] Abbreviation node_at := (node_at zeroV).
#[local] Abbreviation set_data_at := (set_data_at zeroV).
#[local] Abbreviation element_at := (element_at zeroV).
#[local] Abbreviation elements := (elements zeroV).
#[local] Abbreviation ih_elements := (ih_elements zeroV).

#[local] Ltac Zify.zify_post_hook ::= Z.to_euclidean_division_equations.

#[local] Ltac in_range :=
  repeat match goal with
         | |- context [length (if ?c then _ else _)] => destruct c
         end;
  rewrite ?length_set_data_at; lia.

(** ** Lists updated in place *)

Lemma replace_Permutation {A : Type} (l : list A) (p : nat) (x y : A) :
  l !! p = Some x -> x :: <[p:=y]> l ≡ₚ y :: l.
Proof.
  intros Hp.
  rewrite insert_take_drop by (eapply lookup_lt_Some; exact Hp).
  rewrite <- (take_drop_middle l p x Hp) at 3.
  rewrite <- !Permutation_middle. apply Permutation_swap.
Qed.

(** Overwrite position [p] with the last element and drop the last position:
    what is left, with the old value of [p], is the old list. *)
Lemma move_last_Permutation {A : Type} (l : list A) (p n : nat) (r x z : A) :
  l !! p = Some r -> l !! n = Some x -> length l = S n ->
  r :: take n (<[n:=z]> (<[p:=x]> l)) ≡ₚ l.
Proof.
  intros Hp Hn Hlen.
  rewrite take_insert_ge by lia.
  set (s := <[n:=r]> (<[p:=x]> l)).
  assert (Hs : s ≡ₚ l) by (apply Permutation_insert_swap; assumption).
  assert (Hsn : s !! n = Some r).
  { subst s. apply list_lookup_insert_eq. rewrite length_insert. lia. }
  assert (Htake : take n s = take n (<[p:=x]> l)).
  { subst s. apply take_insert_ge. lia. }
  rewrite <- Htake, <- Hs.
  rewrite <- (take_ge s (S n)) at 2 by (subst s; rewrite !length_insert; lia).
  rewrite (take_S_r s n r Hsn).
  apply Permutation_cons_append.
Qed.

(** The same when the last element first moves down by one position. *)
Lemma move_last_two_Permutation {A : Type} (l : list A) (n : nat) (r x y z : A) :
  l !! 0%nat = Some r -> l !! n = Some x -> l !! S n = Some y -> length l = S (S n) ->
  r :: take (S n) (<[S n:=z]> (<[n:=y]> (<[0%nat:=x]> l))) ≡ₚ l.
Proof.
  intros H0 Hn HSn Hlen.
  set (s := <[n:=r]> (<[0%nat:=x]> l)).
  assert (Hs : s ≡ₚ l) by (apply Permutation_insert_swap; assumption).
  rewrite <- Hs at 2.
  replace (<[n:=y]> (<[0%nat:=x]> l)) with (<[n:=y]> s)
    by (subst s; apply list_insert_insert_eq).
  apply move_last_Permutation.
  - subst s. apply list_lookup_insert_eq. rewrite length_insert. lia.
  - subst s. rewrite !list_lookup_insert_ne by lia. exact HSn.
  - subst s. rewrite !length_insert. exact Hlen.
Qed.

(** The two root slots when the replaced extreme is on the other side of the
    node. *)
Lemma replace_root_Permutation {A : Type} (l : list A) (lo hi e : A) :
  l !! 0%nat = Some lo -> l !! 1%nat = Some hi ->
  hi :: <[0%nat:=e]> (<[1%nat:=lo]> l) ≡ₚ e :: l /\
  lo :: <[1%nat:=e]> (<[0%nat:=hi]> l) ≡ₚ e :: l.
Proof.
  destruct l as [|a [|c t]]; cbn; intros [= ->] H1; try discriminate.
  injection H1 as ->. split.
  - eapply perm_trans; [apply perm_swap|]. apply perm_skip. apply perm_swap.
  - eapply perm_trans; [apply perm_skip; apply perm_swap|]. apply perm_swap.
Qed.

(** ** The stored elements as a list *)

Lemma element_at_slot (b : list node) (i k : Z) :
  0 <= i -> k = 0 \/ k = 1 ->
  element_at b (2 * i + k) = data (node_at b i) k.
Proof.
  intros Hi Hk. unfold IntervalHeap.element_at.
  replace ((2 * i + k) / 2) with i by lia.
  replace ((2 * i + k) mod 2) with k by lia. reflexivity.
Qed.

Lemma length_elements (b : list node) (cnt : Z) :
  length (elements b cnt) = Z.to_nat cnt.
Proof. unfold IntervalHeap.elements. rewrite length_fmap, length_seq. reflexivity. Qed.

Lemma lookup_elements (b : list node) (cnt : Z) (p : nat) :
  (p < Z.to_nat cnt)%nat ->
  elements b cnt !! p = Some (element_at b (Z.of_nat p)).
Proof.
  intros Hp. unfold IntervalHeap.elements.
  rewrite list_lookup_fmap, lookup_seq_lt by exact Hp. reflexivity.
Qed.

Lemma lookup_elements_slot (b : list node) (cnt i k : Z) :
  occupied cnt i k ->
  elements b cnt !! Z.to_nat (2 * i + k) = Some (data (node_at b i) k).
Proof.
  intros (Hi & Hk & Hlt).
  rewrite lookup_elements by lia.
  rewrite Z2Nat.id by lia. rewrite element_at_slot by assumption. reflexivity.
Qed.

(** The assignment [buffer[i].data[k] = v] seen on the list of elements. *)
Lemma elements_set_data_at (b : list node) (cnt i k : Z) (v : V) :
  0 <= i -> k = 0 \/ k = 1 -> (Z.to_nat i < length b)%nat ->
  elements (set_data_at b i k v) cnt = <[Z.to_nat (2 * i + k) := v]> (elements b cnt).
Proof.
  intros Hi Hk Hlen. apply list_eq. intros p.
  destruct (Nat.lt_ge_cases p (Z.to_nat cnt)) as [Hp|Hp].
  2:{ rewrite !lookup_ge_None_2; [reflexivity| |].
      - rewrite length_insert, length_elements. exact Hp.
      - rewrite length_elements. exact Hp. }
  rewrite lookup_elements by exact Hp.
  rewrite list_lookup_insert, length_elements.
  unfold IntervalHeap.element_at at 1.
  rewrite data_set_data_at by lia.
  destruct (Z.eqb_spec (Z.of_nat p / 2) i) as [Hq|Hq]; cbn [andb].
  - destruct (Z.eqb_spec (Z.of_nat p mod 2) 0) as [Hm|Hm];
      destruct (Z.eqb_spec k 0) as [Hk0|Hk0]; cbn [Bool.eqb].
    + rewrite decide_True by lia. reflexivity.
    + rewrite decide_False by lia. rewrite lookup_elements by exact Hp. reflexivity.
    + rewrite decide_False by lia. rewrite lookup_elements by exact Hp. reflexivity.
    + rewrite decide_True by lia. reflexivity.
  - rewrite decide_False by lia. rewrite lookup_elements by exact Hp. reflexivity.
Qed.

Lemma elements_take (b : list node) (n n' : Z) :
  n' <= n -> elements b n' = take (Z.to_nat n') (elements b n).
Proof.
  intros Hle. unfold IntervalHeap.elements.
  rewrite <- fmap_take. f_equal.
  apply list_eq. intros p.
  destruct (Nat.lt_ge_cases p (Z.to_nat n')) as [Hp|Hp].
  - rewrite lookup_take_lt by exact Hp. rewrite !lookup_seq_lt by lia. reflexivity.
  - rewrite lookup_take_ge by exact Hp. apply lookup_ge_None_2. rewrite length_seq. exact Hp.
Qed.

Lemma elements_snoc (b : list node) (n : Z) :
  0 <= n -> elements b (n + 1) = elements b n ++ [element_at b n].
Proof.
  intros Hn. unfold IntervalHeap.elements.
  replace (Z.to_nat (n + 1)) with (S (Z.to_nat n)) by lia.
  rewrite seq_S, fmap_app. cbn. rewrite Z2Nat.id by lia. reflexivity.
Qed.

(** The three assignments that swap two occupied slots permute the list of
    elements. *)
Lemma elements_swap (b : list node) (cnt i1 k1 i2 k2 : Z) :
  occupied cnt i1 k1 -> occupied cnt i2 k2 -> cnt <= 2 * Z.of_nat (length b) ->
  elements
    (set_data_at (set_data_at b i1 k1 (data (node_at b i2) k2))
       i2 k2 (data (node_at b i1) k1)) cnt
  ≡ₚ elements b cnt.
Proof.
  intros H1 H2 Hlen.
  pose proof H1 as (Hi1 & Hk1 & Hlt1). pose proof H2 as (Hi2 & Hk2 & Hlt2).
  rewrite !elements_set_data_at by in_range.
  apply Permutation_insert_swap; apply lookup_elements_slot; assumption.
Qed.

Lemma elements_ext (b1 b2 : list node) (cnt : Z) :
  (forall i, 0 <= i -> 2 * i < cnt -> node_at b1 i = node_at b2 i) ->
  elements b1 cnt = elements b2 cnt.
Proof.
  intros Hsame. apply list_eq. intros p.
  destruct (Nat.lt_ge_cases p (Z.to_nat cnt)) as [Hp|Hp].
  - rewrite !lookup_elements by exact Hp. unfold IntervalHeap.element_at.
    rewrite Hsame by lia. reflexivity.
  - rewrite !lookup_ge_None_2; [reflexivity| |]; rewrite length_elements; exact Hp.
Qed.

(** ** Creating and resizing *)

(** X1. [ih_new] fails exactly when the requested capacity is 0 or
    [UINT64_MAX], the function table is [NULL], or an allocation fails. The
    heap it creates is empty, well formed, and has one node for every two
    requested elements, rounded up. *)
Theorem new_result (cap : Z) (f_val malloc_ok calloc_ok : bool) :
  0 <= cap <= UINT64_MAX ->
  (ih_new zeroV cap f_val malloc_ok calloc_ok = None <->
   cap = 0 \/ cap = UINT64_MAX \/ f_val = false \/ malloc_ok = false \/
   calloc_ok = false) /\
  (forall h : heap,
     ih_new zeroV cap f_val malloc_ok calloc_ok = Some h ->
     ih_capacity h = (cap + 1) / 2 /\ ih_count h = 0 /\ well_formed h /\
     ih_min zeroV h = None /\ ih_max zeroV h = None /\
     forall i, 0 <= i < ih_capacity h -> node_at (buffer h) i = zero_node zeroV).
Proof.
  intros Hcap. split.
  - unfold ih_new, UINT64_MAX in *.
    destruct (Z.eqb_spec cap 0); cbn [orb]; [tauto|].
    destruct (Z.eqb_spec cap 18446744073709551615); [tauto|].
    destruct f_val, malloc_ok, calloc_ok; cbn [negb];
      (split; [intros H; try discriminate H; tauto
              |intros [?|[?|[?|[?|?]]]]; try lia; try discriminate; reflexivity]).
  - intros h Hnew.
    destruct (new_ok _ _ _ _ _ _ Hcap Hnew) as (Hwf & Hcnt & Hsz).
    assert (Hmade : capacity h = (cap + 1) / 2 /\
                    buffer h = replicate (Z.to_nat (capacity h)) (zero_node zeroV)).
    { unfold ih_new, UINT64_MAX in *.
      destruct (Z.eqb_spec cap 0); cbn [orb] in Hnew; [discriminate|].
      destruct (Z.eqb_spec cap 18446744073709551615); [discriminate|].
      destruct f_val; cbn [negb] in Hnew; [|discriminate].
      destruct malloc_ok; cbn [negb] in Hnew; [|discriminate].
      destruct calloc_ok; cbn [negb] in Hnew; [|discriminate].
      injection Hnew as <-. cbn [buffer capacity].
      rewrite (wrap_small (cap + 1)) by lia.
      split; [destruct (Z.eqb_spec (cap mod 2) 0); lia|reflexivity]. }
    destruct Hmade as (Hc & Hb).
    unfold ih_capacity, ih_count, ih_min, ih_max, ih_empty. rewrite Hcnt.
    split; [exact Hc|]. split; [reflexivity|]. split; [exact Hwf|].
    split; [reflexivity|]. split; [reflexivity|].
    intros i Hi. unfold IntervalHeap.node_at. rewrite Hb.
    rewrite lookup_replicate_2 by lia. reflexivity.
Qed.

Lemma resize_false_unchanged (realloc : allocator V) (h : heap) (cap : Z) :
  fst (ih_resize zeroV realloc h cap) = false ->
  snd (ih_resize zeroV realloc h cap) = h.
Proof.
  unfold ih_resize.
  destruct (ih_capacity h =? cap); [discriminate|].
  destruct (cap <? ih_count h); [reflexivity|].
  destruct (realloc _ _); [discriminate|reflexivity].
Qed.

(** X2. Resizing a well-formed heap to at least four times its number of
    nodes, the request that [ih_insert] makes, succeeds whenever [realloc]
    does; the heap then has one node for every two requested elements, the
    same stored elements in the same positions, zeroed nodes from the old
    capacity to twice the old capacity, and is well formed. *)
Theorem resize_grow (realloc : allocator V) (h h' : heap) (cap : Z) (r : bool) :
  realloc_contract realloc -> well_formed h ->
  4 * ih_capacity h <= cap < UINT64_MAX ->
  ih_resize zeroV realloc h cap = (r, h') ->
  (r = true <-> realloc (buffer h) ((cap + 1) / 2) <> None) /\
  (r = true ->
   ih_capacity h' = (cap + 1) / 2 /\ ih_count h' = ih_count h /\
   ih_elements h' = ih_elements h /\ well_formed h' /\
   forall i, ih_capacity h <= i < 2 * ih_capacity h ->
     node_at (buffer h') i = zero_node zeroV).
Proof.
  unfold UINT64_MAX, ih_capacity, ih_count.
  intros Hre (Hcap & Hlen & Hsz & Hcnt0 & Hshape) Hreq Hres.
  unfold ih_resize, ih_capacity, ih_count in Hres.
  destruct (Z.eqb_spec (capacity h) cap); [lia|].
  destruct (Z.ltb_spec cap (count h)); [lia|].
  rewrite (wrap_small (cap + 1)) in Hres by lia.
  replace (if cap mod 2 =? 0 then cap / 2 else (cap + 1) / 2) with ((cap + 1) / 2)
    in Hres by (destruct (Z.eqb_spec (cap mod 2) 0); lia).
  destruct (realloc (buffer h) ((cap + 1) / 2)) as [new_buffer|] eqn:Halloc.
  2:{ injection Hres as <- <-. split; [split; [discriminate|congruence]|discriminate]. }
  injection Hres as <- <-. split; [split; [discriminate|reflexivity]|]. intros _.
  destruct (Hre _ _ _ Halloc) as (Hnl & Hkeep).
  cbn [buffer capacity size count].
  assert (Hnodes : forall i, 0 <= i < capacity h ->
            node_at (memset_nodes zeroV new_buffer (capacity h) (capacity h)) i =
            node_at (buffer h) i).
  { intros i Hi. unfold IntervalHeap.node_at.
    rewrite lookup_memset_nodes_below by lia. rewrite Hkeep by lia. reflexivity. }
  split; [reflexivity|]. split; [reflexivity|]. split; [|split].
  - unfold IntervalHeap.ih_elements. cbn [buffer count].
    apply elements_ext. intros i Hi Hlt. apply Hnodes. lia.
  - unfold well_formed. cbn [buffer capacity size count].
    rewrite length_memset_nodes. repeat split; lia.
  - intros i Hi. unfold IntervalHeap.node_at, memset_nodes.
    assert (Hin : Z.to_nat i ∈ seq (Z.to_nat (capacity h)) (Z.to_nat (capacity h)))
      by (apply elem_of_seq; lia).
    assert (Hl : (Z.to_nat i < length new_buffer)%nat) by lia.
    revert Hin Hl. generalize (seq (Z.to_nat (capacity h)) (Z.to_nat (capacity h))) as l.
    generalize new_buffer as b0. intros b0 l. revert b0.
    induction l as [|j l IH] using rev_ind; intros b0 Hin Hl.
    + apply elem_of_nil in Hin. contradiction.
    + rewrite foldl_app. cbn [foldl].
      assert (Hlf : forall l0 b1, length (foldl (fun acc i0 => <[i0:=zero_node zeroV]> acc) b1 l0)
                                  = length b1).
      { intros l0. induction l0 as [|a l0 IHl]; intros b1; cbn [foldl]; [reflexivity|].
        rewrite IHl. apply length_insert. }
      destruct (Nat.eq_dec j (Z.to_nat i)) as [->|Hne].
      * rewrite list_lookup_insert_eq by (rewrite Hlf; exact Hl). reflexivity.
      * rewrite list_lookup_insert_ne by exact Hne.
        apply IH; [|exact Hl].
        apply elem_of_app in Hin as [Hin|Hin]; [exact Hin|].
        apply list_elem_of_singleton in Hin. congruence.
Qed.

(** ** Moving an iterator *)

(** X3. [ih_iter_go_to] succeeds exactly when the index is below the element
    count and either is the cursor's index already or the iterator may move:
    its start flag is unset and its cursor is not 0. On success the cursor is
    at the index and [ih_iter_value] reads the element there; on failure the
    cursor stays where it was. *)
Theorem iter_go_to_result (h : heap) (iter : intervalheap_iter) (index : Z) :
  0 <= cursor iter <= UINT64_MAX -> 0 <= index <= UINT64_MAX ->
  (fst (ih_iter_go_to h iter index) = true <->
   index < ih_count h /\
   (index = cursor iter \/ (start iter = false /\ cursor iter <> 0))) /\
  (fst (ih_iter_go_to h iter index) = true ->
   ih_iter_index (snd (ih_iter_go_to h iter index)) = index /\
   ih_iter_value zeroV h (snd (ih_iter_go_to h iter index)) =
     element_at (buffer h) index) /\
  (fst (ih_iter_go_to h iter index) = false ->
   ih_iter_index (snd (ih_iter_go_to h iter index)) = cursor iter).
Proof.
  unfold UINT64_MAX. intros Hc Hi.
  unfold ih_iter_go_to, ih_iter_rewind, ih_iter_advance, ih_iter_index, ih_iter_value,
    ih_empty, ih_count.
  destruct (Z.geb_spec index (count h)) as [Hout|Hin]; cbn [fst snd].
  { split; [split; [discriminate|lia]|]. split; [discriminate|reflexivity]. }
  destruct (Z.eqb_spec (count h) 0) as [|_]; [lia|].
  destruct (Z.gtb_spec (cursor iter) index) as [Hback|Hnback].
  - rewrite (wrap_small (cursor iter - index)) by lia.
    destruct (start iter); cbn [fst snd].
    { split; [split; [discriminate|intros (_ & [?|[? _]]); [lia|discriminate]]|].
      split; [discriminate|reflexivity]. }
    destruct (Z.eqb_spec (cursor iter) 0); [lia|].
    destruct (Z.eqb_spec (cursor iter - index) 0); [lia|]. cbn [orb].
    destruct (Z.ltb_spec (cursor iter) (cursor iter - index)); [lia|]. cbn [fst snd cursor].
    rewrite wrap_small by lia.
    replace (cursor iter - (cursor iter - index)) with index by lia.
    split; [split; [intros _; split; [lia|right; split; [reflexivity|assumption]]|reflexivity]|].
    split; [intros _; split; reflexivity|discriminate].
  - destruct (Z.ltb_spec (cursor iter) index) as [Hfwd|Hsame].
    + rewrite (wrap_small (index - cursor iter)) by lia.
      destruct (start iter); cbn [fst snd].
      { split; [split; [discriminate|intros (_ & [?|[? _]]); [lia|discriminate]]|].
        split; [discriminate|reflexivity]. }
      destruct (Z.eqb_spec (cursor iter) 0) as [Hz|Hnz]; cbn [fst snd cursor].
      { split; [split; [discriminate|intros (_ & [?|[_ ?]]); [lia|contradiction]]|].
        split; [discriminate|reflexivity]. }
      destruct (Z.eqb_spec (index - cursor iter) 0); [lia|]. cbn [orb].
      rewrite !wrap_small by lia.
      replace (cursor iter + (index - cursor iter)) with index by lia.
      destruct (Z.geb_spec index (count h)); [lia|]. cbn [fst snd cursor].
      split; [split; [intros _; split; [lia|right; split; [reflexivity|assumption]]|reflexivity]|].
      split; [intros _; split; reflexivity|discriminate].
    + assert (index = cursor iter) as -> by lia. cbn [fst snd].
      split; [split; [intros _; split; [lia|left; reflexivity]|reflexivity]|].
      split; [intros _; split; reflexivity|discriminate].
Qed.

(** X4. A successful [ih_iter_next] is undone by [ih_iter_prev], and a
    successful [ih_iter_prev] from a cursor inside the heap is undone by
    [ih_iter_next]: the second call succeeds and the cursor is back where it
    was. *)
Theorem iter_next_prev_round_trip (h : heap) (iter : intervalheap_iter) :
  ih_count h <> 0 -> 0 <= cursor iter < UINT64_MAX ->
  (fst (ih_iter_next h iter) = true ->
   fst (ih_iter_prev h (snd (ih_iter_next h iter))) = true /\
   cursor (snd (ih_iter_prev h (snd (ih_iter_next h iter)))) = cursor iter) /\
  (cursor iter < ih_count h -> fst (ih_iter_prev h iter) = true ->
   fst (ih_iter_next h (snd (ih_iter_prev h iter))) = true /\
   cursor (snd (ih_iter_next h (snd (ih_iter_prev h iter)))) = cursor iter).
Proof.
  unfold UINT64_MAX, ih_count. intros Hne Hc.
  unfold ih_iter_next, ih_iter_prev, ih_empty, ih_count.
  destruct (Z.eqb_spec (count h) 0) as [|_]; [contradiction|].
  split.
  - destruct (end_ iter); [discriminate|].
    rewrite (wrap_small (cursor iter + 1)) by lia.
    destruct (Z.eqb_spec (cursor iter + 1) (count h)); [discriminate|].
    intros _. cbn [fst snd cursor start end_].
    destruct (Z.eqb_spec (cursor iter + 1) 0); [lia|]. cbn [fst snd cursor].
    rewrite wrap_small by lia. split; [reflexivity|lia].
  - intros Hin. destruct (start iter); [discriminate|].
    destruct (Z.eqb_spec (cursor iter) 0); [discriminate|].
    intros _. cbn [fst snd cursor start end_].
    rewrite (wrap_small (cursor iter - 1)) by lia.
    rewrite (wrap_small (cursor iter - 1 + 1)) by lia.
    destruct (Z.eqb_spec (cursor iter - 1 + 1) (count h)); [lia|]. cbn [fst snd cursor].
    split; [reflexivity|lia].
Qed.

(** X5. No iterator movement takes a cursor that is inside the heap out of
    it. *)
Theorem iter_moves_stay_inside (h : heap) (iter : intervalheap_iter) (n : Z) :
  0 <= cursor iter < ih_count h -> ih_count h <= UINT64_MAX ->
  0 <= n <= UINT64_MAX ->
  let inside (it : intervalheap_iter) := 0 <= cursor it < ih_count h in
  inside (ih_iter_to_start h iter) /\ inside (ih_iter_to_end h iter) /\
  inside (snd (ih_iter_next h iter)) /\ inside (snd (ih_iter_prev h iter)) /\
  inside (snd (ih_iter_advance h iter n)) /\ inside (snd (ih_iter_rewind h iter n)) /\
  inside (snd (ih_iter_go_to h iter n)).
Proof.
  unfold UINT64_MAX, ih_count. intros Hc Hmax Hn. cbv zeta.
  assert (Hw : forall z, 0 <= wrap z) by (intros z; unfold wrap; lia).
  assert (Hadv : forall m, 0 <= cursor (snd (ih_iter_advance h iter m)) < count h).
  { intros m. unfold ih_iter_advance, ih_count.
    destruct (start iter); [exact Hc|].
    destruct (cursor iter =? 0); [exact Hc|].
    destruct (m =? 0); cbn [orb]; [exact Hc|].
    destruct (Z.geb_spec (wrap (cursor iter + m)) (count h)); [exact Hc|].
    cbn [snd cursor]. split; [apply Hw|assumption]. }
  assert (Hrew : forall m, 0 <= m ->
            0 <= cursor (snd (ih_iter_rewind h iter m)) < count h).
  { intros m Hm. unfold ih_iter_rewind.
    destruct (start iter); [exact Hc|].
    destruct (cursor iter =? 0); [exact Hc|].
    destruct (Z.eqb_spec m 0); cbn [orb]; [exact Hc|].
    destruct (Z.ltb_spec (cursor iter) m); [exact Hc|].
    cbn [snd cursor]. rewrite wrap_small by lia. lia. }
  split; [|split; [|split; [|split; [|split; [|split]]]]].
  - unfold ih_iter_to_start, ih_empty.
    destruct (count h =? 0); cbn [negb cursor]; lia.
  - unfold ih_iter_to_end, ih_empty.
    destruct (Z.eqb_spec (count h) 0); cbn [negb cursor]; [lia|].
    rewrite wrap_small by lia. lia.
  - unfold ih_iter_next, ih_count.
    destruct (end_ iter); [exact Hc|].
    rewrite !(wrap_small (cursor iter + 1)) by lia.
    destruct (Z.eqb_spec (cursor iter + 1) (count h)); cbn [snd cursor]; lia.
  - unfold ih_iter_prev.
    destruct (start iter); [exact Hc|].
    destruct (Z.eqb_spec (cursor iter) 0); cbn [snd cursor]; [lia|].
    rewrite wrap_small by lia. lia.
  - apply Hadv.
  - apply Hrew. lia.
  - unfold ih_iter_go_to.
    destruct (n >=? ih_count h); [exact Hc|].
    destruct (cursor iter >? n); [apply Hrew, Hw|].
    destruct (cursor iter <? n); [apply Hadv|exact Hc].
Qed.

(** X6. Starting from [ih_impl_it_start] on a heap that is not empty, [k]
    calls of [ih_iter_next] with [k] below the element count leave the cursor
    at index [k] with the end flag unset, where [ih_iter_value] reads the
    element at buffer position [k]. The next call succeeds exactly when
    [k + 1] is still below the count; on the last element it fails, sets the end
    flag and does not move. *)
Theorem iter_forward_walk (h : heap) (k : nat) :
  Z.of_nat k < ih_count h -> ih_count h <= UINT64_MAX ->
  let it := repeat_step (fun it => snd (ih_iter_next h it)) k (ih_impl_it_start h) in
  ih_iter_index it = Z.of_nat k /\ ih_iter_end h it = false /\
  ih_iter_value zeroV h it = element_at (buffer h) (Z.of_nat k) /\
  (fst (ih_iter_next h it) = true <-> Z.of_nat k + 1 < ih_count h) /\
  (Z.of_nat k + 1 = ih_count h ->
   ih_iter_end h (snd (ih_iter_next h it)) = true /\
   ih_iter_index (snd (ih_iter_next h it)) = Z.of_nat k).
Proof.
  unfold UINT64_MAX, ih_count. intros Hk Hmax. cbv zeta.
  assert (Hne : (count h =? 0) = false) by (apply Z.eqb_neq; lia).
  assert (Hstate : forall (j : nat) (it : intervalheap_iter),
            Z.of_nat j + cursor it < count h -> 0 <= cursor it -> end_ it = false ->
            let it' := repeat_step (fun it => snd (ih_iter_next h it)) j it in
            cursor it' = cursor it + Z.of_nat j /\ end_ it' = false).
  { induction j as [|j IH]; intros it Hj Hc He; cbn [repeat_step].
    - split; [lia|exact He].
    - assert (Hstep : snd (ih_iter_next h it) =
                      mk_iter (cursor it + 1) (ih_empty h) false).
      { unfold ih_iter_next, ih_count. rewrite He.
        rewrite !(wrap_small (cursor it + 1)) by lia.
        destruct (Z.eqb_spec (cursor it + 1) (count h)); [lia|]. reflexivity. }
      destruct (IH (snd (ih_iter_next h it))) as (Hcur & Hend);
        try (rewrite Hstep; cbn [cursor end_]; (lia || reflexivity)).
      assert (Hc1 : cursor (snd (ih_iter_next h it)) = cursor it + 1)
        by (rewrite Hstep; reflexivity).
      rewrite Hc1 in Hcur. split; [lia|exact Hend]. }
  assert (Hstart : ih_impl_it_start h = mk_iter 0 true false).
  { unfold ih_impl_it_start, ih_iter_to_start, ih_iter_init, ih_empty.
    rewrite Hne. reflexivity. }
  destruct (Hstate k (ih_impl_it_start h)) as (Hcur & Hend);
    try (rewrite Hstart; cbn [cursor end_]; (lia || reflexivity)).
  assert (Hc0 : cursor (ih_impl_it_start h) = 0) by (rewrite Hstart; reflexivity).
  rewrite Hc0 in Hcur.
  set (it := repeat_step _ k _) in *.
  unfold ih_iter_index, ih_iter_end, ih_iter_value, ih_iter_next, ih_empty, ih_count.
  rewrite Hne, Hend, Hcur. cbn [orb].
  rewrite !(wrap_small (0 + Z.of_nat k + 1)) by lia.
  replace (0 + Z.of_nat k) with (Z.of_nat k) by lia.
  split; [reflexivity|]. split; [reflexivity|]. split; [reflexivity|].
  destruct (Z.eqb_spec (Z.of_nat k + 1) (count h)) as [Hlast|Hnlast]; cbn [fst snd end_ cursor].
  - split; [split; [discriminate|lia]|]. intros _. split; reflexivity.
  - split; [split; [lia|reflexivity]|]. lia.
Qed.

(** X7. Starting from [ih_impl_it_end] on a heap that is not empty, [k] calls
    of [ih_iter_prev] leave the cursor at index [count - 1 - k] with the start
    flag unset; the next call succeeds exactly when that index is not 0, and
    on index 0 it fails, sets the start flag and does not move. *)
Theorem iter_backward_walk (h : heap) (k : nat) :
  Z.of_nat k < ih_count h -> ih_count h <= UINT64_MAX ->
  let it := repeat_step (fun it => snd (ih_iter_prev h it)) k (ih_impl_it_end h) in
  ih_iter_index it = ih_count h - 1 - Z.of_nat k /\ ih_iter_start h it = false /\
  ih_iter_value zeroV h it = element_at (buffer h) (ih_count h - 1 - Z.of_nat k) /\
  (fst (ih_iter_prev h it) = true <-> Z.of_nat k + 1 < ih_count h) /\
  (Z.of_nat k + 1 = ih_count h ->
   ih_iter_start h (snd (ih_iter_prev h it)) = true /\
   ih_iter_index (snd (ih_iter_prev h it)) = 0).
Proof.
  unfold UINT64_MAX, ih_count. intros Hk Hmax. cbv zeta.
  assert (Hne : (count h =? 0) = false) by (apply Z.eqb_neq; lia).
  assert (Hstate : forall (j : nat) (it : intervalheap_iter),
            Z.of_nat j <= cursor it < count h -> start it = false ->
            let it' := repeat_step (fun it => snd (ih_iter_prev h it)) j it in
            cursor it' = cursor it - Z.of_nat j /\ start it' = false).
  { induction j as [|j IH]; intros it Hj Hs; cbn [repeat_step].
    - split; [lia|exact Hs].
    - assert (Hstep : snd (ih_iter_prev h it) =
                      mk_iter (cursor it - 1) false (ih_empty h)).
      { unfold ih_iter_prev. rewrite Hs.
        destruct (Z.eqb_spec (cursor it) 0); [lia|].
        rewrite wrap_small by lia. cbn [snd]. reflexivity. }
      destruct (IH (snd (ih_iter_prev h it))) as (Hcur & Hst);
        try (rewrite Hstep; cbn [cursor start]; (lia || reflexivity)).
      assert (Hc1 : cursor (snd (ih_iter_prev h it)) = cursor it - 1)
        by (rewrite Hstep; reflexivity).
      rewrite Hc1 in Hcur. split; [lia|exact Hst]. }
  assert (Hend : ih_impl_it_end h = mk_iter (count h - 1) false true).
  { unfold ih_impl_it_end, ih_iter_to_end, ih_iter_init, ih_empty.
    rewrite Hne. cbn [negb]. rewrite wrap_small by lia. reflexivity. }
  destruct (Hstate k (ih_impl_it_end h)) as (Hcur & Hst);
    try (rewrite Hend; cbn [cursor start]; (lia || reflexivity)).
  assert (Hc0 : cursor (ih_impl_it_end h) = count h - 1) by (rewrite Hend; reflexivity).
  rewrite Hc0 in Hcur.
  set (it := repeat_step _ k _) in *.
  unfold ih_iter_index, ih_iter_start, ih_iter_value, ih_iter_prev, ih_empty, ih_count.
  rewrite Hne, Hst, Hcur. cbn [orb].
  split; [reflexivity|]. split; [reflexivity|]. split; [reflexivity|].
  destruct (Z.eqb_spec (count h - 1 - Z.of_nat k) 0) as [Hlast|Hnlast];
    cbn [fst snd start cursor].
  - split; [split; [discriminate|lia]|]. intros _. split; [reflexivity|lia].
  - split; [split; [lia|reflexivity]|]. lia.
Qed.

(** ** Copying element by element *)

Lemma element_at_set_position (b : list node) (i p : Z) (v : V) :
  0 <= i -> 0 <= p -> (Z.to_nat (i / 2) < length b)%nat ->
  element_at (set_data_at b (i / 2) (i mod 2) v) p =
  if p =? i then v else element_at b p.
Proof.
  intros Hi Hp Hlen. unfold IntervalHeap.element_at.
  rewrite data_set_data_at by lia.
  destruct (Z.eqb_spec p i) as [->|Hne].
  - rewrite !Z.eqb_refl. destruct (i mod 2 =? 0); reflexivity.
  - destruct (Z.eqb_spec (p / 2) (i / 2)) as [Hq|Hq]; cbn [andb]; [|reflexivity].
    destruct (Z.eqb_spec (p mod 2) 0); destruct (Z.eqb_spec (i mod 2) 0);
      cbn [Bool.eqb]; try reflexivity; lia.
Qed.

Lemma copy_loop_result (n : nat) (cpy : V -> V) :
  forall (dst src : list node) (i : Z),
    0 <= i -> i + Z.of_nat n <= 2 * Z.of_nat (length dst) ->
    length (copy_loop zeroV n cpy dst src i) = length dst /\
    forall p, 0 <= p ->
      element_at (copy_loop zeroV n cpy dst src i) p =
      if (i <=? p) && (p <? i + Z.of_nat n) then cpy (element_at src p)
      else element_at dst p.
Proof.
  induction n as [|n IH]; intros dst src i Hi Hlen; cbn [copy_loop].
  - split; [reflexivity|]. intros p Hp.
    destruct (Z.leb_spec i p); destruct (Z.ltb_spec p (i + Z.of_nat 0));
      cbn [andb]; try reflexivity; lia.
  - destruct (IH (set_data_at dst (i / 2) (i mod 2)
                    (cpy (data (node_at src (i / 2)) (i mod 2)))) src (i + 1))
      as (Hl & Hel); [lia|rewrite length_set_data_at; lia|].
    split; [rewrite Hl; apply length_set_data_at|].
    intros p Hp. rewrite Hel by exact Hp.
    rewrite element_at_set_position by lia.
    destruct (Z.leb_spec (i + 1) p); destruct (Z.ltb_spec p (i + 1 + Z.of_nat n));
      destruct (Z.leb_spec i p); destruct (Z.ltb_spec p (i + Z.of_nat (S n)));
      destruct (Z.eqb_spec p i); cbn [andb]; try reflexivity; try lia.
    subst p. reflexivity.
Qed.

Lemma copy_of_made (cpy : option (V -> V)) (malloc_ok : bool)
  (malloc_nodes : Z -> option (list node)) (h h' : heap) :
  malloc_contract malloc_nodes ->
  length (buffer h) = Z.to_nat (capacity h) ->
  0 <= count h <= 2 * capacity h ->
  ih_copy_of zeroV cpy malloc_ok malloc_nodes h = Some h' ->
  ih_count h' = ih_count h /\ size h' = size h /\ ih_capacity h' = ih_capacity h /\
  length (buffer h') = length (buffer h) /\
  ih_elements h' = default id cpy <$> ih_elements h.
Proof.
  intros Hm Hlen Hcnt. unfold ih_copy_of.
  destruct malloc_ok; cbn [negb]; [|discriminate].
  destruct (malloc_nodes (capacity h)) as [fresh|] eqn:Hfresh; [|discriminate].
  apply Hm in Hfresh. intros [= <-].
  unfold ih_count, ih_capacity, IntervalHeap.ih_elements.
  cbn [buffer capacity size count].
  split; [reflexivity|]. split; [reflexivity|]. split; [reflexivity|].
  destruct cpy as [f|]; cbn [default].
  - destruct (copy_loop_result (Z.to_nat (count h)) f fresh (buffer h) 0) as (Hl & Hel);
      [lia|lia|].
    split; [lia|].
    apply list_eq. intros p. rewrite list_lookup_fmap.
    destruct (Nat.lt_ge_cases p (Z.to_nat (count h))) as [Hp|Hp].
    + rewrite !lookup_elements by exact Hp. cbn [fmap option_fmap option_map].
      rewrite Hel by lia.
      destruct (Z.leb_spec 0 (Z.of_nat p));
        destruct (Z.ltb_spec (Z.of_nat p) (0 + Z.of_nat (Z.to_nat (count h))));
        cbn [andb]; try reflexivity; lia.
    + rewrite !lookup_ge_None_2 by (rewrite length_elements; exact Hp). reflexivity.
  - assert (Hb : memcpy_nodes fresh (buffer h) (capacity h) = buffer h).
    { unfold memcpy_nodes. rewrite take_ge by lia. rewrite drop_ge by lia.
      apply app_nil_r. }
    rewrite Hb. split; [reflexivity|]. rewrite list_fmap_id. reflexivity.
Qed.

(** X8. [ih_copy_of] fails exactly when one of its two allocations fails. The
    copy has the count, size and capacity of the original and, position by
    position, the images of its stored elements under [f_val->cpy], or the
    elements themselves when there is no copy function. *)
Theorem copy_of_result (cpy : option (V -> V)) (malloc_ok : bool)
  (malloc_nodes : Z -> option (list node)) (h : heap) :
  malloc_contract malloc_nodes ->
  length (buffer h) = Z.to_nat (capacity h) ->
  0 <= count h <= 2 * capacity h ->
  (ih_copy_of zeroV cpy malloc_ok malloc_nodes h = None <->
   malloc_ok = false \/ malloc_nodes (capacity h) = None) /\
  (forall h' : heap,
     ih_copy_of zeroV cpy malloc_ok malloc_nodes h = Some h' ->
     ih_count h' = ih_count h /\ size h' = size h /\ ih_capacity h' = ih_capacity h /\
     length (buffer h') = length (buffer h) /\
     ih_elements h' = default id cpy <$> ih_elements h).
Proof.
  intros Hm Hlen Hcnt. split.
  - unfold ih_copy_of. destruct malloc_ok; cbn [negb]; [|tauto].
    destruct (malloc_nodes (capacity h)); split; try tauto; try discriminate.
    intros [?|?]; discriminate.
  - intros h'. apply copy_of_made; assumption.
Qed.

Section CollectionComparator.

Variable cmp : V -> V -> Z.

(** ** The float passes permute the stored elements *)

Lemma float_up_min_loop_perm (fuel : nat) :
  forall (b : list node) (index cnt : Z),
    occupied cnt index 0 -> cnt <= 2 * Z.of_nat (length b) ->
    length (float_up_min_loop zeroV cmp fuel b index) = length b /\
    elements (float_up_min_loop zeroV cmp fuel b index) cnt ≡ₚ elements b cnt.
Proof.
  induction fuel as [|fuel IH]; intros b index cnt Hocc Hlen; [split; reflexivity|].
  cbn [float_up_min_loop].
  destruct (Z.gtb_spec index 0) as [Hpos|_]; [|split; reflexivity].
  destruct (_ >=? 0); [split; reflexivity|]. cbv zeta.
  destruct Hocc as (Hi & _ & Hlt).
  assert (HP : occupied cnt ((index - 1) / 2) 0) by (unfold occupied; lia).
  match goal with
  | |- context [float_up_min_loop _ _ _ ?b2 _] =>
      destruct (IH b2 ((index - 1) / 2) cnt HP) as (Hl & Hp); [in_range|]
  end.
  split; [rewrite Hl; in_range|].
  rewrite Hp. apply elements_swap; [unfold occupied; lia|exact HP|exact Hlen].
Qed.

Lemma float_up_max_loop_perm (fuel : nat) :
  forall (b : list node) (index sz cnt : Z),
    1 <= sz <= UINT64_MAX -> 0 <= index <= sz - 1 ->
    occupied cnt index (floating_slot sz cnt index) ->
    cnt <= 2 * Z.of_nat (length b) ->
    length (float_up_max_loop zeroV cmp fuel sz cnt b index) = length b /\
    elements (float_up_max_loop zeroV cmp fuel sz cnt b index) cnt ≡ₚ elements b cnt.
Proof.
  unfold UINT64_MAX.
  induction fuel as [|fuel IH]; intros b index sz cnt Hsz Hidx Hocc Hlen;
    [split; reflexivity|].
  cbn [float_up_max_loop].
  destruct (Z.gtb_spec index 0) as [Hpos|_]; [|split; reflexivity].
  rewrite (wrap_small (sz - 1)) by lia.
  assert (HfsP : floating_slot sz cnt ((index - 1) / 2) = 1).
  { unfold floating_slot. destruct (Z.eqb_spec ((index - 1) / 2) (sz - 1)); [lia|reflexivity]. }
  assert (HP : occupied cnt ((index - 1) / 2) 1).
  { destruct Hocc as (_ & Hk & Hlt). unfold occupied. lia. }
  unfold floating_slot in Hocc.
  destruct ((index =? sz - 1) && negb (cnt mod 2 =? 0));
    (destruct (_ <? 0); [split; reflexivity|]); cbv zeta;
    match goal with
    | |- context [float_up_max_loop _ _ _ _ _ ?b2 _] =>
        destruct (IH b2 ((index - 1) / 2) sz cnt) as (Hl & Hp);
          [lia|lia|rewrite HfsP; exact HP|in_range|]
    end;
    (split; [rewrite Hl; in_range|]);
    rewrite Hp; apply elements_swap; assumption.
Qed.

Lemma float_down_max_loop_perm (fuel : nat) :
  forall (b : list node) (index sz cnt : Z),
    sz < 9223372036854775808 -> 0 <= index <= sz ->
    cnt = 2 * sz \/ cnt = 2 * sz - 1 ->
    cnt <= 2 * Z.of_nat (length b) ->
    elements (float_down_max_loop zeroV cmp fuel sz cnt b index) cnt ≡ₚ elements b cnt.
Proof.
  induction fuel as [|fuel IH]; intros b index sz cnt Hsz Hidx Hshape Hlen;
    [reflexivity|].
  cbn [float_down_max_loop].
  destruct (Z.geb_spec (wrap (2 * index + 1)) sz) as [_|Hchild]; [reflexivity|].
  assert (Hsmall : 2 * index + 1 < sz).
  { rewrite wrap_small in Hchild by lia. exact Hchild. }
  rewrite !(wrap_small (index * 2 + 1)), !(wrap_small (index * 2 + 2)),
    !(wrap_small (sz - 1)) by lia.
  cbv zeta.
  remember (if index * 2 + 2 <? sz then _ else _) as child eqn:Hdef.
  assert (Hc : index < child < sz).
  { subst child. destruct (Z.ltb_spec (index * 2 + 2) sz); [|lia].
    destruct (_ && _); destruct (_ >? 0); lia. }
  clear Hdef.
  assert (Hi1 : occupied cnt index 1) by (unfold occupied; lia).
  assert (Hc0 : occupied cnt child 0) by (unfold occupied; lia).
  destruct (Z.eqb_spec child (sz - 1)) as [Hlast|Hnlast]; cbn [andb];
    [destruct (Z.eqb_spec (cnt mod 2) 0) as [Heven|Hodd]; cbn [negb]|].
  2:{ (* the child is the incomplete last node *)
      destruct (_ >=? 0); [reflexivity|].
      rewrite IH by (try in_range; lia).
      apply elements_swap; assumption. }
  all: assert (Hc1 : occupied cnt child 1) by (unfold occupied; lia).
  all: destruct (_ >=? 0); [reflexivity|].
  all: rewrite IH by in_range.
  all: match goal with
       | |- IntervalHeap.elements _ (if ?c then _ else _) _ ≡ₚ _ => destruct c
       end.
  all: try (apply elements_swap; assumption).
  all: etransitivity; [apply elements_swap; (assumption || in_range)|];
       apply elements_swap; assumption.
Qed.

Lemma float_down_min_loop_perm (fuel : nat) :
  forall (b : list node) (index sz cnt : Z),
    sz < 9223372036854775808 -> 0 <= index <= sz ->
    cnt = 2 * sz \/ cnt = 2 * sz - 1 ->
    cnt <= 2 * Z.of_nat (length b) ->
    elements (float_down_min_loop zeroV cmp fuel sz cnt b index) cnt ≡ₚ elements b cnt.
Proof.
  induction fuel as [|fuel IH]; intros b index sz cnt Hsz Hidx Hshape Hlen;
    [reflexivity|].
  cbn [float_down_min_loop].
  destruct (Z.geb_spec (wrap (2 * index + 1)) sz) as [_|Hchild]; [reflexivity|].
  assert (Hsmall : 2 * index + 1 < sz).
  { rewrite wrap_small in Hchild by lia. exact Hchild. }
  rewrite !(wrap_small (index * 2 + 1)), !(wrap_small (index * 2 + 2)),
    !(wrap_small (sz - 1)) by lia.
  cbv zeta.
  remember (if index * 2 + 2 <? sz then _ else _) as child eqn:Hdef.
  assert (Hc : index < child < sz).
  { subst child. destruct (Z.ltb_spec (index * 2 + 2) sz); [|lia].
    destruct (_ <? 0); lia. }
  clear Hdef.
  assert (Hi0 : occupied cnt index 0) by (unfold occupied; lia).
  assert (Hc0 : occupied cnt child 0) by (unfold occupied; lia).
  destruct (_ <? 0); [reflexivity|].
  destruct (Z.eqb_spec child (sz - 1)) as [Hlast|Hnlast]; cbn [negb orb];
    [destruct (Z.eqb_spec (cnt mod 2) 0) as [Heven|Hodd]|].
  2:{ rewrite IH by (try in_range; lia). apply elements_swap; assumption. }
  all: assert (Hc1 : occupied cnt child 1) by (unfold occupied; lia).
  all: rewrite IH by in_range.
  all: match goal with
       | |- IntervalHeap.elements _ (if ?c then _ else _) _ ≡ₚ _ => destruct c
       end.
  all: try (apply elements_swap; assumption).
  all: etransitivity; [apply elements_swap; (assumption || in_range)|];
       apply elements_swap; assumption.
Qed.

(** ** Insert adds exactly one element *)

Lemma insert_float_perm (b : list node) (cap sz cnt : Z) (element : V) :
  2 < cnt -> cnt <= 2 * Z.of_nat (length b) ->
  sz < 9223372036854775808 ->
  cnt = 2 * sz \/ cnt = 2 * sz - 1 ->
  let h := mk_heap b cap sz cnt in
  let parent := wrap (size h - 1) / 2 in
  let r :=
    if cmp (data (node_at (buffer h) parent) 0) element >? 0 then
      ih_impl_float_up_min zeroV cmp h
    else if cmp (data (node_at (buffer h) parent) 1) element <? 0 then
      ih_impl_float_up_max zeroV cmp h
    else h in
  length (buffer r) = length b /\ capacity r = cap /\ size r = sz /\ count r = cnt /\
  elements (buffer r) cnt ≡ₚ elements b cnt.
Proof.
  intros Hcnt Hlen Hsz Hshape. cbv zeta. cbn [buffer size].
  destruct (_ >? 0); [|destruct (_ <? 0)].
  - unfold ih_impl_float_up_min, with_buffer. cbn [buffer capacity size count].
    rewrite (wrap_small (sz - 1)) by lia.
    destruct (float_up_min_loop_perm (Z.to_nat sz) b (sz - 1) cnt) as (Hl & Hp);
      [unfold occupied; lia|exact Hlen|].
    repeat split; assumption.
  - unfold ih_impl_float_up_max, with_buffer. cbn [buffer capacity size count].
    rewrite (wrap_small (sz - 1)) by lia.
    destruct (float_up_max_loop_perm (Z.to_nat sz) b (sz - 1) sz cnt) as (Hl & Hp);
      [unfold UINT64_MAX; lia|lia| |exact Hlen|].
    { unfold floating_slot, occupied. rewrite Z.eqb_refl. cbn [andb].
      destruct (Z.eqb_spec (cnt mod 2) 0); cbn [negb]; lia. }
    repeat split; assumption.
  - cbn [buffer capacity size count]. repeat split; reflexivity.
Qed.

Lemma insert_keeps_elements (realloc : allocator V) (h h' : heap) (element : V) :
  realloc_contract realloc -> well_formed h ->
  ih_insert zeroV cmp realloc h element = (true, h') ->
  well_formed h' /\ ih_count h' = ih_count h + 1 /\
  ih_elements h' ≡ₚ ih_elements h ++ [element].
Proof.
  intros Hre Hwf Hins. unfold ih_insert in Hins.
  destruct (if ih_full h then _ else _) as [resized h1] eqn:Hstep.
  destruct resized; cbn [negb] in Hins; [|discriminate].
  destruct (insert_resize_ok _ _ _ _ Hre Hwf Hstep)
    as (Hwf1 & Hsz1 & Hcnt1 & Hkeep & Hfree & _).
  assert (Hel : ih_elements h1 = ih_elements h).
  { unfold IntervalHeap.ih_elements. rewrite Hcnt1.
    apply elements_ext. intros i Hi Hlt. apply Hkeep.
    destruct Hwf as (_ & _ & _ & _ & Hshape). lia. }
  unfold ih_count. rewrite <- Hel, <- Hcnt1.
  clear Hstep Hkeep Hwf Hsz1 Hcnt1 Hel h Hre realloc.
  destruct h1 as [b cap sz cnt].
  destruct Hwf1 as (Hcap & Hlen & Hsz & Hcnt0 & Hshape).
  unfold ih_count, with_buffer, IntervalHeap.ih_elements in *.
  cbn [buffer capacity size count] in *.
  destruct (Z.eqb_spec (cnt mod 2) 0) as [Heven|Hoddc];
    cbn [buffer capacity size count] in Hins.
  - (* occupying a new node *)
    assert (Hcs : cnt = 2 * sz) by lia.
    specialize (Hfree Hcs).
    rewrite (wrap_small (sz + 1)), (wrap_small (cnt + 1)) in Hins by lia.
    set (b2 := set_data_at (set_data_at b sz 0 element) sz 1 zeroV) in *.
    assert (Hlen2 : length b2 = length b) by (subst b2; in_range).
    assert (Hb2 : elements b2 (cnt + 1) = elements b cnt ++ [element]).
    { rewrite elements_snoc by lia. f_equal.
      - subst b2. rewrite !elements_set_data_at by in_range.
        rewrite !list_insert_ge by (rewrite ?length_insert, length_elements; lia).
        reflexivity.
      - replace cnt with (2 * sz + 0) by lia.
        rewrite (element_at_slot b2 sz 0) by lia.
        subst b2. rewrite !data_set_data_at by in_range.
        rewrite Z.eqb_refl. reflexivity. }
    destruct (Z.leb_spec (cnt + 1) 2) as [Hsmall|Hbig].
    { injection Hins as <-. unfold well_formed. cbn [buffer capacity size count].
      rewrite Hb2. repeat split; try lia. reflexivity. }
    pose proof (insert_float_perm b2 cap (sz + 1) (cnt + 1) element) as Hfl.
    cbv zeta in Hfl. cbn [buffer capacity size count] in Hfl.
    destruct Hfl as (Hl & Hc & Hs & Hn & Hp); try lia.
    apply float_choice in Hins. rewrite Hins.
    unfold well_formed. rewrite Hl, Hc, Hs, Hn, Hp, Hb2.
    repeat split; try lia. reflexivity.
  - (* completing the last node *)
    assert (Hcs : cnt = 2 * sz - 1) by lia.
    rewrite !(wrap_small (sz - 1)) in Hins by lia.
    assert (Hl0 : elements b cnt !! Z.to_nat (2 * (sz - 1) + 0) =
                  Some (data (node_at b (sz - 1)) 0))
      by (apply lookup_elements_slot; unfold occupied; lia).
    assert (Hplace : exists b2,
               length b2 = length b /\
               elements b2 (cnt + 1) ≡ₚ elements b cnt ++ [element] /\
               (if cmp (data (node_at b (sz - 1)) 0) element >? 0
                then mk_heap (set_data_at (set_data_at b (sz - 1) 1
                                (data (node_at b (sz - 1)) 0)) (sz - 1) 0 element)
                       cap sz cnt
                else mk_heap (set_data_at b (sz - 1) 1 element) cap sz cnt)
               = mk_heap b2 cap sz cnt).
    { destruct (_ >? 0);
        [exists (set_data_at (set_data_at b (sz - 1) 1 (data (node_at b (sz - 1)) 0))
                   (sz - 1) 0 element)
        |exists (set_data_at b (sz - 1) 1 element)];
        (split; [in_range|split; [|reflexivity]]).
      - rewrite elements_snoc by lia.
        replace cnt with (2 * (sz - 1) + 1) at 2 by lia.
        rewrite (element_at_slot _ (sz - 1) 1) by lia.
        rewrite !elements_set_data_at by in_range.
        rewrite !data_set_data_at by in_range.
        rewrite Z.eqb_refl. cbn.
        rewrite (list_insert_ge _ (Z.to_nat (2 * (sz - 1) + 1)))
          by (rewrite length_elements; lia).
        rewrite <- !Permutation_cons_append.
        apply replace_Permutation. exact Hl0.
      - rewrite elements_snoc by lia.
        replace cnt with (2 * (sz - 1) + 1) at 2 by lia.
        rewrite (element_at_slot _ (sz - 1) 1) by lia.
        rewrite !elements_set_data_at by in_range.
        rewrite !data_set_data_at by in_range.
        rewrite Z.eqb_refl. cbn.
        rewrite (list_insert_ge _ (Z.to_nat (2 * (sz - 1) + 1)))
          by (rewrite length_elements; lia).
        reflexivity. }
    destruct Hplace as (b2 & Hlen2 & Hb2 & Hh).
    rewrite Hh in Hins. cbn [buffer capacity size count] in Hins. clear Hh.
    rewrite !(wrap_small (cnt + 1)), !(wrap_small (sz - 1)) in Hins by lia.
    destruct (Z.leb_spec (cnt + 1) 2) as [Hsmall|Hbig].
    { injection Hins as <-. unfold well_formed. cbn [buffer capacity size count].
      rewrite Hb2. repeat split; try lia. reflexivity. }
    pose proof (insert_float_perm b2 cap sz (cnt + 1) element) as Hfl.
    cbv zeta in Hfl. cbn [buffer capacity size count] in Hfl.
    rewrite !(wrap_small (sz - 1)) in Hfl by lia.
    destruct Hfl as (Hl & Hc & Hs & Hn & Hp); try lia.
    apply float_choice in Hins. rewrite Hins.
    unfold well_formed. rewrite Hl, Hc, Hs, Hn, Hp, Hb2.
    repeat split; try lia. reflexivity.
Qed.

(** X9. After a successful [ih_insert] on a well-formed heap the stored
    elements are the old ones and the new element, in some order; the heap
    stays well formed. *)
Theorem insert_elements (realloc : allocator V) (h h' : heap) (element : V) :
  realloc_contract realloc -> well_formed h ->
  ih_insert zeroV cmp realloc h element = (true, h') ->
  well_formed h' /\ ih_count h' = ih_count h + 1 /\
  ih_elements h' ≡ₚ ih_elements h ++ [element].
Proof. apply insert_keeps_elements. Qed.

(** ** Removing an extreme takes out exactly one element *)

Lemma float_down_min_elements (b : list node) (cap sz cnt : Z) :
  0 <= sz < 9223372036854775808 ->
  cnt = 2 * sz \/ cnt = 2 * sz - 1 ->
  cnt <= 2 * Z.of_nat (length b) ->
  ih_elements (ih_impl_float_down_min zeroV cmp (mk_heap b cap sz cnt)) ≡ₚ elements b cnt.
Proof.
  intros Hsz Hshape Hlen.
  unfold IntervalHeap.ih_elements, ih_impl_float_down_min, with_buffer.
  cbn [buffer capacity size count].
  apply float_down_min_loop_perm; lia.
Qed.

Lemma float_down_max_elements (b : list node) (cap sz cnt : Z) :
  0 <= sz < 9223372036854775808 ->
  cnt = 2 * sz \/ cnt = 2 * sz - 1 ->
  cnt <= 2 * Z.of_nat (length b) ->
  ih_elements (ih_impl_float_down_max zeroV cmp (mk_heap b cap sz cnt)) ≡ₚ elements b cnt.
Proof.
  intros Hsz Hshape Hlen.
  unfold IntervalHeap.ih_elements, ih_impl_float_down_max, with_buffer.
  cbn [buffer capacity size count].
  apply float_down_max_loop_perm; lia.
Qed.

Lemma float_down_min_well_formed (b : list node) (cap sz cnt : Z) :
  well_formed (mk_heap b cap sz cnt) ->
  well_formed (ih_impl_float_down_min zeroV cmp (mk_heap b cap sz cnt)).
Proof.
  unfold well_formed, ih_impl_float_down_min, with_buffer.
  cbn [buffer capacity size count]. rewrite length_float_down_min_loop. tauto.
Qed.

Lemma float_down_max_well_formed (b : list node) (cap sz cnt : Z) :
  well_formed (mk_heap b cap sz cnt) ->
  well_formed (ih_impl_float_down_max zeroV cmp (mk_heap b cap sz cnt)).
Proof.
  unfold well_formed, ih_impl_float_down_max, with_buffer.
  cbn [buffer capacity size count]. rewrite length_float_down_max_loop. tauto.
Qed.

(** X10. On a well-formed heap that is not empty [ih_remove_min] returns the
    value that [ih_min] reports, takes exactly that element out of the stored
    elements and lowers the count by one; from two elements on the heap stays
    well formed. *)
Theorem remove_min_elements (h : heap) :
  well_formed h -> count h <> 0 ->
  exists (r : V) (h' : heap),
    ih_remove_min zeroV cmp h = (Some r, h') /\
    ih_min zeroV h = Some r /\
    ih_count h' = ih_count h - 1 /\
    ih_capacity h' = ih_capacity h /\
    r :: ih_elements h' ≡ₚ ih_elements h /\
    (2 <= count h -> well_formed h').
Proof.
  intros (Hcap & Hlen & Hsz & Hcnt0 & Hshape) Hne.
  destruct h as [b cap sz cnt]. cbn [buffer capacity size count] in *.
  unfold ih_remove_min, ih_min, ih_empty, ih_count, ih_capacity, with_buffer.
  cbn [buffer capacity size count].
  destruct (Z.eqb_spec cnt 0) as [|_]; [contradiction|].
  set (L := elements b cnt).
  assert (HL : length L = Z.to_nat cnt) by apply length_elements.
  assert (H0 : L !! 0%nat = Some (data (node_at b 0) 0)).
  { change 0%nat with (Z.to_nat (2 * 0 + 0)).
    apply lookup_elements_slot. unfold occupied. lia. }
  destruct (Z.eqb_spec cnt 1) as [Hone|Hmore].
  { eexists _, _. split; [reflexivity|]. split; [reflexivity|].
    cbn [buffer capacity size count]. rewrite wrap_small by lia.
    split; [reflexivity|]. split; [reflexivity|]. split; [|lia].
    unfold IntervalHeap.ih_elements. cbn [buffer count].
    subst cnt. change (1 - 1) with 0.
    unfold IntervalHeap.elements at 1 2. cbn.
    unfold IntervalHeap.element_at. reflexivity. }
  rewrite !(wrap_small (sz - 1)) by lia.
  destruct (Z.eqb_spec (cnt mod 2) 1) as [Hodd|Heven];
    cbn [buffer capacity size count];
    rewrite !(wrap_small (cnt - 1)) by lia.
  - (* the last node held one element and is discarded *)
    eexists _, _. split; [reflexivity|]. split; [reflexivity|].
    unfold ih_impl_float_down_min at 1 2. cbn [with_buffer buffer capacity size count].
    split; [reflexivity|]. split; [reflexivity|]. split.
    + rewrite float_down_min_elements by in_range.
      unfold IntervalHeap.ih_elements. cbn [buffer count].
      rewrite (elements_take _ cnt) by lia.
      rewrite !elements_set_data_at by in_range. fold L.
      replace (Z.to_nat (2 * (sz - 1) + 0)) with (Z.to_nat (cnt - 1)) by lia.
      replace (Z.to_nat (2 * 0 + 0)) with 0%nat by lia.
      apply move_last_Permutation; [exact H0| |lia].
      replace (Z.to_nat (cnt - 1)) with (Z.to_nat (2 * (sz - 1) + 0)) by lia.
      apply lookup_elements_slot. unfold occupied. lia.
    + intros _. apply float_down_min_well_formed. unfold well_formed.
      cbn [buffer capacity size count]. repeat split; try in_range.
  - (* the last node keeps its MaxHeap value as its MinHeap value *)
    eexists _, _. split; [reflexivity|]. split; [reflexivity|].
    unfold ih_impl_float_down_min at 1 2. cbn [with_buffer buffer capacity size count].
    split; [reflexivity|]. split; [reflexivity|]. split.
    + rewrite float_down_min_elements by in_range.
      unfold IntervalHeap.ih_elements. cbn [buffer count].
      rewrite (elements_take _ cnt) by lia.
      rewrite !elements_set_data_at by in_range. fold L.
      assert (Hy : data (node_at (set_data_at b 0 0 (data (node_at b (sz - 1)) 0)) (sz - 1)) 1
                   = data (node_at b (sz - 1)) 1).
      { rewrite data_set_data_at by in_range.
        destruct (sz - 1 =? 0); reflexivity. }
      rewrite Hy.
      replace (Z.to_nat (2 * (sz - 1) + 1)) with (S (Z.to_nat (cnt - 2))) by lia.
      replace (Z.to_nat (2 * (sz - 1) + 0)) with (Z.to_nat (cnt - 2)) by lia.
      replace (Z.to_nat (2 * 0 + 0)) with 0%nat by lia.
      replace (Z.to_nat (cnt - 1)) with (S (Z.to_nat (cnt - 2))) by lia.
      apply move_last_two_Permutation; [exact H0| | |lia].
      * replace (Z.to_nat (cnt - 2)) with (Z.to_nat (2 * (sz - 1) + 0)) by lia.
        apply lookup_elements_slot. unfold occupied. lia.
      * replace (S (Z.to_nat (cnt - 2))) with (Z.to_nat (2 * (sz - 1) + 1)) by lia.
        apply lookup_elements_slot. unfold occupied. lia.
    + intros _. apply float_down_min_well_formed. unfold well_formed.
      cbn [buffer capacity size count]. repeat split; try in_range.
Qed.

(** X11. On a well-formed heap that is not empty [ih_remove_max] returns the
    value that [ih_max] reports, takes exactly that element out of the stored
    elements and lowers the count by one; from two elements on the heap stays
    well formed. *)
Theorem remove_max_elements (h : heap) :
  well_formed h -> count h <> 0 ->
  exists (r : V) (h' : heap),
    ih_remove_max zeroV cmp h = (Some r, h') /\
    ih_max zeroV h = Some r /\
    ih_count h' = ih_count h - 1 /\
    ih_capacity h' = ih_capacity h /\
    r :: ih_elements h' ≡ₚ ih_elements h /\
    (2 <= count h -> well_formed h').
Proof.
  intros (Hcap & Hlen & Hsz & Hcnt0 & Hshape) Hne.
  destruct h as [b cap sz cnt]. cbn [buffer capacity size count] in *.
  unfold ih_remove_max, ih_max, ih_empty, ih_count, ih_capacity, with_buffer.
  cbn [buffer capacity size count].
  destruct (Z.eqb_spec cnt 0) as [|_]; [contradiction|].
  set (L := elements b cnt).
  assert (HL : length L = Z.to_nat cnt) by apply length_elements.
  destruct (Z.eqb_spec cnt 1) as [Hone|Hmore].
  { eexists _, _. split; [reflexivity|]. split; [reflexivity|].
    cbn [buffer capacity size count]. rewrite wrap_small by lia.
    split; [reflexivity|]. split; [reflexivity|]. split; [|lia].
    unfold IntervalHeap.ih_elements. cbn [buffer count].
    subst cnt. change (1 - 1) with 0.
    unfold IntervalHeap.elements at 1 2. cbn.
    unfold IntervalHeap.element_at. reflexivity. }
  assert (H1 : L !! 1%nat = Some (data (node_at b 0) 1)).
  { change 1%nat with (Z.to_nat (2 * 0 + 1)).
    apply lookup_elements_slot. unfold occupied. lia. }
  rewrite !(wrap_small (sz - 1)) by lia.
  destruct (Z.eqb_spec (cnt mod 2) 1) as [Hodd|Heven];
    cbn [buffer capacity size count];
    rewrite !(wrap_small (cnt - 1)) by lia.
  - eexists _, _. split; [reflexivity|]. split; [reflexivity|].
    unfold ih_impl_float_down_max at 1 2. cbn [with_buffer buffer capacity size count].
    split; [reflexivity|]. split; [reflexivity|]. split.
    + rewrite float_down_max_elements by in_range.
      unfold IntervalHeap.ih_elements. cbn [buffer count].
      rewrite (elements_take _ cnt) by lia.
      rewrite !elements_set_data_at by in_range. fold L.
      replace (Z.to_nat (2 * (sz - 1) + 0)) with (Z.to_nat (cnt - 1)) by lia.
      replace (Z.to_nat (2 * 0 + 1)) with 1%nat by lia.
      apply move_last_Permutation; [exact H1| |lia].
      replace (Z.to_nat (cnt - 1)) with (Z.to_nat (2 * (sz - 1) + 0)) by lia.
      apply lookup_elements_slot. unfold occupied. lia.
    + intros _. apply float_down_max_well_formed. unfold well_formed.
      cbn [buffer capacity size count]. repeat split; try in_range.
  - eexists _, _. split; [reflexivity|]. split; [reflexivity|].
    unfold ih_impl_float_down_max at 1 2. cbn [with_buffer buffer capacity size count].
    split; [reflexivity|]. split; [reflexivity|]. split.
    + rewrite float_down_max_elements by in_range.
      unfold IntervalHeap.ih_elements. cbn [buffer count].
      rewrite (elements_take _ cnt) by lia.
      rewrite !elements_set_data_at by in_range. fold L.
      replace (Z.to_nat (2 * (sz - 1) + 1)) with (Z.to_nat (cnt - 1)) by lia.
      replace (Z.to_nat (2 * 0 + 1)) with 1%nat by lia.
      apply move_last_Permutation; [exact H1| |lia].
      replace (Z.to_nat (cnt - 1)) with (Z.to_nat (2 * (sz - 1) + 1)) by lia.
      apply lookup_elements_slot. unfold occupied. lia.
    + intros _. apply float_down_max_well_formed. unfold well_formed.
      cbn [buffer capacity size count]. repeat split; try in_range.
Qed.

(** ** Updating an extreme replaces exactly one element *)

(** X12. On a well-formed heap that is not empty [ih_update_max] succeeds, and
    the stored elements afterwards are the old ones with the maximum that
    [ih_max] reported taken out and the replacement put in; the heap stays
    well formed. *)
Theorem update_max_elements (h : heap) (element : V) :
  well_formed h -> count h <> 0 ->
  exists (old : V) (h' : heap),
    ih_max zeroV h = Some old /\
    ih_update_max zeroV cmp h element = (true, h') /\
    old :: ih_elements h' ≡ₚ element :: ih_elements h /\
    well_formed h'.
Proof.
  intros (Hcap & Hlen & Hsz & Hcnt0 & Hshape) Hne.
  destruct h as [b cap sz cnt]. cbn [buffer capacity size count] in *.
  unfold ih_update_max, ih_max, ih_empty, ih_count, with_buffer.
  cbn [buffer capacity size count].
  destruct (Z.eqb_spec cnt 0) as [|_]; [contradiction|].
  assert (H0 : elements b cnt !! 0%nat = Some (data (node_at b 0) 0)).
  { change 0%nat with (Z.to_nat (2 * 0 + 0)).
    apply lookup_elements_slot. unfold occupied. lia. }
  destruct (Z.eqb_spec cnt 1) as [Hone|Hmore].
  { eexists _, _. split; [reflexivity|]. split; [reflexivity|]. split.
    - unfold IntervalHeap.ih_elements. cbn [buffer count].
      rewrite elements_set_data_at by in_range.
      apply replace_Permutation. exact H0.
    - unfold well_formed. cbn [buffer capacity size count].
      repeat split; try in_range. }
  assert (H1 : elements b cnt !! 1%nat = Some (data (node_at b 0) 1)).
  { change 1%nat with (Z.to_nat (2 * 0 + 1)).
    apply lookup_elements_slot. unfold occupied. lia. }
  destruct (_ <? 0).
  - eexists _, _. split; [reflexivity|]. split; [reflexivity|]. split.
    + rewrite float_down_max_elements by in_range.
      unfold IntervalHeap.ih_elements. cbn [buffer count].
      rewrite !elements_set_data_at by in_range.
      apply replace_root_Permutation; assumption.
    + apply float_down_max_well_formed. unfold well_formed.
      cbn [buffer capacity size count]. repeat split; try in_range.
  - eexists _, _. split; [reflexivity|]. split; [reflexivity|]. split.
    + rewrite float_down_max_elements by in_range.
      unfold IntervalHeap.ih_elements. cbn [buffer count].
      rewrite !elements_set_data_at by in_range.
      apply (replace_Permutation _ 1). exact H1.
    + apply float_down_max_well_formed. unfold well_formed.
      cbn [buffer capacity size count]. repeat split; try in_range.
Qed.

(** X13. On a well-formed heap that is not empty [ih_update_min] succeeds, and
    the stored elements afterwards are the old ones with the minimum that
    [ih_min] reported taken out and the replacement put in; the heap stays
    well formed. *)
Theorem update_min_elements (h : heap) (element : V) :
  well_formed h -> count h <> 0 ->
  exists (old : V) (h' : heap),
    ih_min zeroV h = Some old /\
    ih_update_min zeroV cmp h element = (true, h') /\
    old :: ih_elements h' ≡ₚ element :: ih_elements h /\
    well_formed h'.
Proof.
  intros (Hcap & Hlen & Hsz & Hcnt0 & Hshape) Hne.
  destruct h as [b cap sz cnt]. cbn [buffer capacity size count] in *.
  unfold ih_update_min, ih_min, ih_empty, ih_count, with_buffer.
  cbn [buffer capacity size count].
  destruct (Z.eqb_spec cnt 0) as [|_]; [contradiction|].
  assert (H0 : elements b cnt !! 0%nat = Some (data (node_at b 0) 0)).
  { change 0%nat with (Z.to_nat (2 * 0 + 0)).
    apply lookup_elements_slot. unfold occupied. lia. }
  destruct (Z.eqb_spec cnt 1) as [Hone|Hmore].
  { eexists _, _. split; [reflexivity|]. split; [reflexivity|]. split.
    - unfold IntervalHeap.ih_elements. cbn [buffer count].
      rewrite elements_set_data_at by in_range.
      apply replace_Permutation. exact H0.
    - unfold well_formed. cbn [buffer capacity size count].
      repeat split; try in_range. }
  assert (H1 : elements b cnt !! 1%nat = Some (data (node_at b 0) 1)).
  { change 1%nat with (Z.to_nat (2 * 0 + 1)).
    apply lookup_elements_slot. unfold occupied. lia. }
  destruct (_ >? 0).
  - eexists _, _. split; [reflexivity|]. split; [reflexivity|]. split.
    + rewrite float_down_min_elements by in_range.
      unfold IntervalHeap.ih_elements. cbn [buffer count].
      rewrite !elements_set_data_at by in_range.
      apply replace_root_Permutation; assumption.
    + apply float_down_min_well_formed. unfold well_formed.
      cbn [buffer capacity size count]. repeat split; try in_range.
  - eexists _, _. split; [reflexivity|]. split; [reflexivity|]. split.
    + rewrite float_down_min_elements by in_range.
      unfold IntervalHeap.ih_elements. cbn [buffer count].
      rewrite !elements_set_data_at by in_range.
      apply (replace_Permutation _ 0). exact H0.
    + apply float_down_min_well_formed. unfold well_formed.
      cbn [buffer capacity size count]. repeat split; try in_range.
Qed.

(** ** Failing inserts, clearing *)

(** X14. [ih_insert] returns [false] exactly when the heap is full and the
    [ih_resize] to four times its capacity returns [false]; the heap is then
    left as it was. In particular [ih_insert] always succeeds on a heap that
    is not full. *)
Theorem insert_failure (realloc : allocator V) (h : heap) (element : V) :
  (ih_full h = false -> fst (ih_insert zeroV cmp realloc h element) = true) /\
  (fst (ih_insert zeroV cmp realloc h element) = false <->
   ih_full h = true /\
   fst (ih_resize zeroV realloc h (wrap (ih_capacity h * 4))) = false) /\
  (fst (ih_insert zeroV cmp realloc h element) = false ->
   snd (ih_insert zeroV cmp realloc h element) = h).
Proof.
  unfold ih_insert.
  destruct (ih_full h) eqn:Hfull.
  - destruct (ih_resize zeroV realloc h (wrap (ih_capacity h * 4))) as [r h1] eqn:Hres.
    destruct r; cbn [negb fst].
    + match goal with
      | |- _ /\ (fst ?E = false <-> _) /\ _ => assert (Htrue : fst E = true)
      end.
      { destruct (ih_count h1 mod 2 =? 0); [|destruct (_ >? 0)];
          (destruct (_ <=? 2); [|destruct (_ >? 0); [|destruct (_ <? 0)]]);
          reflexivity. }
      rewrite Htrue. split; [discriminate|].
      split; [split; [discriminate|intros (_ & Hf); discriminate Hf]|discriminate].
    + split; [discriminate|]. split; [split; intros _; [split|]; reflexivity|].
      intros _. cbn [snd].
      pose proof (resize_false_unchanged realloc h (wrap (ih_capacity h * 4))) as Hf.
      rewrite Hres in Hf. cbn [fst snd] in Hf. apply Hf. reflexivity.
  - cbn [negb].
    match goal with
    | |- _ /\ (fst ?E = false <-> _) /\ _ => assert (Htrue : fst E = true)
    end.
    { destruct (ih_count h mod 2 =? 0); [|destruct (_ >? 0)];
        (destruct (_ <=? 2); [|destruct (_ >? 0); [|destruct (_ <? 0)]]);
        reflexivity. }
    rewrite Htrue. split; [reflexivity|].
    split; [split; [discriminate|intros (Hf & _); discriminate Hf]|discriminate].
Qed.

Lemma length_memset_slots (b : list node) (n : Z) :
  length (memset_slots zeroV b n) = length b.
Proof.
  unfold memset_slots. generalize (seq 0 (Z.to_nat n)) as l.
  intros l. revert b. induction l as [|p l IH]; intros b; cbn [foldl].
  - reflexivity.
  - rewrite IH. apply length_set_data_at.
Qed.

(** X15. [ih_clear] leaves an empty heap of the same capacity, whatever [size]
    and [count] were before: both peeks and both removals fail, and the next
    insert succeeds and makes its element the minimum and the maximum. *)
Theorem clear_then_insert (realloc : allocator V) (h : heap) (element : V) :
  0 < capacity h < 9223372036854775808 ->
  length (buffer h) = Z.to_nat (capacity h) ->
  well_formed (ih_clear zeroV h) /\
  ih_count (ih_clear zeroV h) = 0 /\
  ih_capacity (ih_clear zeroV h) = ih_capacity h /\
  ih_min zeroV (ih_clear zeroV h) = None /\
  ih_max zeroV (ih_clear zeroV h) = None /\
  ih_remove_min zeroV cmp (ih_clear zeroV h) = (None, ih_clear zeroV h) /\
  ih_remove_max zeroV cmp (ih_clear zeroV h) = (None, ih_clear zeroV h) /\
  exists h' : heap,
    ih_insert zeroV cmp realloc (ih_clear zeroV h) element = (true, h') /\
    ih_count h' = 1 /\
    ih_min zeroV h' = Some element /\ ih_max zeroV h' = Some element /\
    ih_elements h' = [element].
Proof.
  intros Hcap Hlen.
  split.
  { unfold well_formed, ih_clear. cbn [buffer capacity size count].
    rewrite length_memset_slots. repeat split; lia. }
  do 6 (split; [reflexivity|]).
  assert (Hl : (0 < length (memset_slots zeroV (buffer h) (capacity h)))%nat)
    by (rewrite length_memset_slots; lia).
  set (b0 := memset_slots zeroV (buffer h) (capacity h)) in *.
  exists (mk_heap (set_data_at (set_data_at b0 0 0 element) 0 1 zeroV) (capacity h) 1 1).
  split.
  { unfold ih_insert, ih_full, ih_clear, ih_count. fold b0.
    cbn [buffer capacity size count].
    destruct (Z.geb_spec 0 (capacity h)); [lia|]. reflexivity. }
  unfold ih_min, ih_max, ih_empty, ih_count, IntervalHeap.ih_elements.
  cbn [buffer capacity size count].
  change (1 =? 0) with false. change (1 =? 1) with true. cbv iota.
  assert (Hroot : data (node_at (set_data_at (set_data_at b0 0 0 element) 0 1 zeroV) 0) 0
                  = element).
  { rewrite !data_set_data_at by (rewrite ?length_set_data_at; lia). reflexivity. }
  rewrite Hroot. repeat split.
  pose proof (elements_snoc (set_data_at (set_data_at b0 0 0 element) 0 1 zeroV) 0)
    as Hs.
  change (0 + 1) with 1 in Hs. rewrite Hs by lia.
  unfold IntervalHeap.element_at.
  change (0 / 2) with 0. change (0 mod 2) with 0. rewrite Hroot. reflexivity.
Qed.

(** ** Looking for an element *)

Lemma contains_loop_true (n : nat) :
  forall (b : list node) (element : V) (i : Z),
    contains_loop zeroV cmp n b element i = true <->
    exists j, i <= j < i + Z.of_nat n /\ cmp (element_at b j) element = 0.
Proof.
  induction n as [|n IH]; intros b element i; cbn [contains_loop].
  - split; [discriminate|]. intros (j & Hj & _). lia.
  - destruct (Z.eqb_spec (cmp (element_at b i) element) 0) as [Hhit|Hmiss].
    + split; [|reflexivity]. intros _. exists i. split; [lia|exact Hhit].
    + rewrite IH. split; intros (j & Hj & Hc).
      * exists j. split; [lia|exact Hc].
      * exists j. split; [|exact Hc].
        destruct (Z.eq_dec j i) as [->|]; [contradiction|lia].
Qed.

(** X16. [ih_contains] returns [true] exactly when one of the stored elements
    compares equal to the element looked for. *)
Theorem contains_result (h : heap) (element : V) :
  ih_contains zeroV cmp h element = true <->
  exists i, 0 <= i < ih_count h /\ cmp (element_at (buffer h) i) element = 0.
Proof.
  unfold ih_contains, ih_count. rewrite contains_loop_true.
  split; intros (j & Hj & Hc); exists j; (split; [lia|exact Hc]).
Qed.

Lemma contains_elements (h : heap) (element : V) :
  ih_contains zeroV cmp h element = true <->
  exists x, x ∈ ih_elements h /\ cmp x element = 0.
Proof.
  unfold ih_contains. rewrite contains_loop_true.
  unfold IntervalHeap.ih_elements. split.
  - intros (i & Hi & Hc). exists (element_at (buffer h) i). split; [|exact Hc].
    apply list_elem_of_lookup. exists (Z.to_nat i).
    rewrite lookup_elements by lia. rewrite Z2Nat.id by lia. reflexivity.
  - intros (x & Hx & Hc). apply list_elem_of_lookup in Hx as (p & Hp).
    assert (Hlt : (p < Z.to_nat (count h))%nat).
    { apply lookup_lt_Some in Hp. rewrite length_elements in Hp. exact Hp. }
    rewrite lookup_elements in Hp by exact Hlt. injection Hp as <-.
    exists (Z.of_nat p). split; [lia|exact Hc].
Qed.

(** X17. After a successful insert into a well-formed heap, [ih_contains]
    finds the inserted element when it compares equal to itself, and still
    finds whatever it found before. *)
Theorem insert_then_contains (realloc : allocator V) (h h' : heap) (element x : V) :
  realloc_contract realloc -> well_formed h ->
  ih_insert zeroV cmp realloc h element = (true, h') ->
  (cmp element element = 0 -> ih_contains zeroV cmp h' element = true) /\
  (ih_contains zeroV cmp h x = true -> ih_contains zeroV cmp h' x = true).
Proof.
  intros Hre Hwf Hins.
  destruct (insert_keeps_elements _ _ _ _ Hre Hwf Hins) as (_ & _ & Hperm).
  split.
  - intros Hrefl. apply contains_elements. exists element. split; [|exact Hrefl].
    rewrite Hperm. apply elem_of_app. right. apply list_elem_of_singleton. reflexivity.
  - rewrite !contains_elements. intros (y & Hy & Hc). exists y. split; [|exact Hc].
    rewrite Hperm. apply elem_of_app. left. exact Hy.
Qed.

(** ** Comparing and copying heaps *)

Lemma equals_loop_true (n : nat) :
  forall (b1 b2 : list node) (i : Z),
    equals_loop zeroV cmp n b1 b2 i = true <->
    exists j, i <= j < i + Z.of_nat n /\ cmp (element_at b1 j) (element_at b2 j) = 0.
Proof.
  induction n as [|n IH]; intros b1 b2 i; cbn [equals_loop].
  - split; [discriminate|]. intros (j & Hj & _). lia.
  - destruct (Z.eqb_spec (cmp (element_at b1 i) (element_at b2 i)) 0) as [Hhit|Hmiss].
    + split; [|reflexivity]. intros _. exists i. split; [lia|exact Hhit].
    + rewrite IH. split; intros (j & Hj & Hc).
      * exists j. split; [lia|exact Hc].
      * exists j. split; [|exact Hc].
        destruct (Z.eq_dec j i) as [->|]; [contradiction|lia].
Qed.

(** X18. [ih_equals] returns [true] exactly when the two heaps have the same
    element count and, at one buffer position at least, elements that compare
    equal; in particular it returns [false] for two empty heaps. *)
Theorem equals_result (h1 h2 : heap) :
  ih_equals zeroV cmp h1 h2 = true <->
  ih_count h1 = ih_count h2 /\
  exists i, 0 <= i < ih_count h1 /\
    cmp (element_at (buffer h1) i) (element_at (buffer h2) i) = 0.
Proof.
  unfold ih_equals, ih_count.
  destruct (Z.eqb_spec (count h1) (count h2)) as [Heq|Hne]; cbn [negb].
  - rewrite equals_loop_true. split.
    + intros (j & Hj & Hc). split; [exact Heq|]. exists j. split; [lia|exact Hc].
    + intros (_ & j & Hj & Hc). exists j. split; [lia|exact Hc].
  - split; [discriminate|]. intros (Heq & _). contradiction.
Qed.

(** X19. [ih_equals] of a copy and its original: [false] when the heap is
    empty, [true] when it is not and the copy of the first element compares
    equal to the first element. *)
Theorem copy_then_equals (cpy : option (V -> V)) (malloc_ok : bool)
  (malloc_nodes : Z -> option (list node)) (h h' : heap) :
  malloc_contract malloc_nodes ->
  length (buffer h) = Z.to_nat (capacity h) ->
  0 <= count h <= 2 * capacity h ->
  ih_copy_of zeroV cpy malloc_ok malloc_nodes h = Some h' ->
  (count h = 0 -> ih_equals zeroV cmp h' h = false) /\
  (0 < count h ->
   cmp (default id cpy (element_at (buffer h) 0)) (element_at (buffer h) 0) = 0 ->
   ih_equals zeroV cmp h' h = true).
Proof.
  intros Hm Hlen Hcnt Hcopy.
  destruct (copy_of_made cpy malloc_ok malloc_nodes h h' Hm Hlen Hcnt Hcopy)
    as (Hc & _ & _ & _ & Hel).
  unfold ih_count in Hc.
  split.
  - intros Hz. unfold ih_equals, ih_count. rewrite Hc, Hz. reflexivity.
  - intros Hpos Hsame. unfold ih_equals, ih_count.
    rewrite Hc, Z.eqb_refl. cbn [negb]. apply equals_loop_true.
    exists 0. split; [lia|].
    assert (H0 : ih_elements h' !! 0%nat = Some (element_at (buffer h') 0)).
    { unfold IntervalHeap.ih_elements. rewrite lookup_elements by lia. reflexivity. }
    rewrite Hel, list_lookup_fmap in H0.
    unfold IntervalHeap.ih_elements in H0. rewrite lookup_elements in H0 by lia.
    cbn in H0. injection H0 as <-. exact Hsame.
Qed.

(** ** Heaps filled by inserts *)

Lemma filled_invariant (h : heap) (l : list V) :
  filled zeroV cmp h l ->
  inserted zeroV cmp h /\ well_formed h /\ ih_elements h ≡ₚ l.
Proof.
  induction 1 as [cap f m c h Hcap Hnew
                  |realloc h h' element l Hre _ (Hins & Hwf & Hperm) Hstep].
  - split; [exact (inserted_new zeroV cmp cap f m c h Hcap Hnew)|].
    destruct (new_ok _ _ _ _ _ _ Hcap Hnew) as (Hwf & Hcnt & _).
    split; [exact Hwf|]. unfold IntervalHeap.ih_elements. rewrite Hcnt. reflexivity.
  - split; [exact (inserted_insert zeroV cmp realloc h h' element Hre Hins Hstep)|].
    destruct (insert_keeps_elements _ _ _ _ Hre Hwf Hstep) as (Hwf' & _ & Hperm').
    split; [exact Hwf'|]. rewrite Hperm', Hperm. symmetry. apply Permutation_cons_append.
Qed.

(** X20. The stored elements of a heap filled by inserts are the inserted
    elements, in some order, and their number is the element count. *)
Theorem filled_elements (h : heap) (l : list V) :
  filled zeroV cmp h l ->
  ih_elements h ≡ₚ l /\ ih_count h = Z.of_nat (length l) /\ well_formed h.
Proof.
  intros Hf. destruct (filled_invariant h l Hf) as (_ & Hwf & Hperm).
  split; [exact Hperm|]. split; [|exact Hwf].
  apply Permutation_length in Hperm.
  unfold IntervalHeap.ih_elements in Hperm. rewrite length_elements in Hperm.
  destruct Hwf as (_ & _ & _ & Hcnt0 & _). unfold ih_count. lia.
Qed.

Section CollectionOrder.

Hypothesis cmp_antisym : forall a b, cmp a b < 0 <-> 0 < cmp b a.
Hypothesis cmp_trans : forall a b c, cmp a b <= 0 -> cmp b c <= 0 -> cmp a c <= 0.

(** X21. After the elements of a list that is not empty were inserted into a
    new heap, [ih_min] reports one of them that is not greater than any of
    them and [ih_max] one of them that is not smaller than any of them. *)
Theorem filled_extremes (h : heap) (l : list V) :
  filled zeroV cmp h l -> l <> [] ->
  exists mn mx : V,
    ih_min zeroV h = Some mn /\ ih_max zeroV h = Some mx /\
    mn ∈ l /\ mx ∈ l /\
    forall x, x ∈ l -> cmp mn x <= 0 /\ cmp mx x >= 0.
Proof.
  intros Hf Hnil.
  destruct (filled_invariant h l Hf) as (Hins & Hwf & Hperm).
  destruct (inserted_invariant zeroV cmp cmp_antisym cmp_trans h Hins) as (_ & Hrb).
  assert (Hcnt : count h = Z.of_nat (length l)).
  { pose proof (Permutation_length Hperm) as Hl.
    unfold IntervalHeap.ih_elements in Hl. rewrite length_elements in Hl.
    destruct Hwf as (_ & _ & _ & Hcnt0 & _). lia. }
  assert (Hpos : 0 < count h) by (destruct l; [contradiction|cbn in Hcnt; lia]).
  assert (Hmem : forall x, x ∈ l <->
            exists p, 0 <= p < count h /\ element_at (buffer h) p = x).
  { intros x. rewrite <- Hperm. unfold IntervalHeap.ih_elements.
    rewrite list_elem_of_lookup. split.
    - intros (p & Hp).
      assert (Hlt : (p < Z.to_nat (count h))%nat).
      { apply lookup_lt_Some in Hp. rewrite length_elements in Hp. exact Hp. }
      rewrite lookup_elements in Hp by exact Hlt. injection Hp as <-.
      exists (Z.of_nat p). split; [lia|reflexivity].
    - intros (p & Hp & <-). exists (Z.to_nat p).
      rewrite lookup_elements by lia. rewrite Z2Nat.id by lia. reflexivity. }
  assert (Hge : forall a b, cmp a b <= 0 -> cmp b a >= 0).
  { intros a b Hab. destruct (Z_lt_le_dec (cmp b a) 0) as [Hneg|]; [|lia].
    apply cmp_antisym in Hneg. lia. }
  unfold ih_min, ih_max, ih_empty, ih_count.
  destruct (Z.eqb_spec (count h) 0) as [|_]; [lia|].
  assert (Hlow : element_at (buffer h) 0 = data (node_at (buffer h) 0) 0) by reflexivity.
  destruct (Z.eqb_spec (count h) 1) as [Hone|Hmore].
  - exists (data (node_at (buffer h) 0) 0), (data (node_at (buffer h) 0) 0).
    split; [reflexivity|]. split; [reflexivity|].
    assert (Hin : data (node_at (buffer h) 0) 0 ∈ l)
      by (apply Hmem; exists 0; split; [lia|exact Hlow]).
    split; [exact Hin|]. split; [exact Hin|].
    intros x Hx. apply Hmem in Hx as (p & Hp & <-).
    assert (p = 0) as -> by lia. rewrite Hlow.
    rewrite (cmp_refl cmp cmp_antisym). lia.
  - exists (data (node_at (buffer h) 0) 0), (data (node_at (buffer h) 0) 1).
    split; [reflexivity|]. split; [reflexivity|].
    destruct Hrb as (Hlo & Hhi); [lia|].
    split; [apply Hmem; exists 0; split; [lia|exact Hlow]|].
    split; [apply Hmem; exists 1; split; [lia|reflexivity]|].
    intros x Hx. apply Hmem in Hx as (p & Hp & <-).
    assert (Hocc : occupied (count h) (p / 2) (p mod 2)) by (unfold occupied; lia).
    split.
    + apply (Hlo _ _ Hocc). lia.
    + apply Hge. apply (Hhi _ _ Hocc). lia.
Qed.

End CollectionOrder.

End CollectionComparator.

End Collection.

(** * The heap of integers *)

Import IntHeap.

Lemma intcmp_antisym (a b : Z) : intcmp a b < 0 <-> 0 < intcmp b a.
Proof. unfold intcmp. lia. Qed.

Lemma intcmp_trans (a b c : Z) : intcmp a b <= 0 -> intcmp b c <= 0 -> intcmp a c <= 0.
Proof. unfold intcmp. lia. Qed.

Lemma realloc_zero_contract : realloc_contract realloc_zero.
Proof.
  intros b b' n [= <-]. split.
  - rewrite length_app, length_take, length_replicate. lia.
  - intros i Hb Hn. rewrite lookup_app_l by (rewrite length_take; lia).
    apply lookup_take_lt. exact Hn.
Qed.

Lemma insert_all_inserted (l : list Z) :
  forall h h' : intervalheap Z,
    inserted 0 intcmp h -> insert_all h l = Some h' -> inserted 0 intcmp h'.
Proof.
  unfold insert_all.
  induction l as [|e l IH]; intros h h' Hh Hall; cbn [foldl] in Hall.
  - injection Hall as <-. exact Hh.
  - destruct (ih_insert 0 intcmp realloc_zero h e) as [[|] h1] eqn:Hins.
    + apply (IH h1); [|exact Hall].
      exact (inserted_insert 0 intcmp realloc_zero h h1 e realloc_zero_contract Hh Hins).
    + exfalso. clear -Hall. induction l as [|x l IHl]; [discriminate|].
      cbn [foldl] in Hall. apply IHl. exact Hall.
Qed.

Lemma heap_of_inserted (cap : Z) (l : list Z) (h : intervalheap Z) :
  0 <= cap <= UINT64_MAX -> heap_of cap l = Some h -> inserted 0 intcmp h.
Proof.
  intros Hcap Hof. unfold heap_of in Hof.
  destruct (ih_new 0 cap true true true) as [h0|] eqn:Hnew; [|discriminate].
  apply (insert_all_inserted l h0); [|exact Hof].
  exact (inserted_new 0 intcmp cap true true true h0 Hcap Hnew).
Qed.

Lemma heap_10_30_20_built : heap_of 4 [10; 20; 30] = Some heap_10_30_20.
Proof. reflexivity. Qed.

Lemma heap_1_2_built : heap_of 2 [1; 2] = Some heap_1_2.
Proof. reflexivity. Qed.

(** C1 at the heap built from 10, 20, 30 and the insert of 5. *)
Lemma insert_peek_bounds_witness :
  inserted 0 intcmp heap_10_30_20 /\
  ih_insert 0 intcmp realloc_zero heap_10_30_20 5 =
    (true, mk_heap [mk_node 5 30; mk_node 10 20] 2 2 4) /\
  exists mn mx : Z,
    ih_min 0 (mk_heap [mk_node 5 30; mk_node 10 20] 2 2 4) = Some mn /\
    ih_max 0 (mk_heap [mk_node 5 30; mk_node 10 20] 2 2 4) = Some mx /\
    forall i : Z, 0 <= i < 4 ->
      intcmp mn (element_at 0 [mk_node 5 30; mk_node 10 20] i) <= 0 /\
      intcmp mx (element_at 0 [mk_node 5 30; mk_node 10 20] i) >= 0.
Proof.
  assert (Hreach : inserted 0 intcmp heap_10_30_20).
  { apply (heap_of_inserted 4 [10; 20; 30]); [unfold UINT64_MAX; lia|reflexivity]. }
  split; [exact Hreach|]. split; [reflexivity|].
  exact (insert_peek_bounds 0 intcmp intcmp_antisym intcmp_trans realloc_zero
           heap_10_30_20 (mk_heap [mk_node 5 30; mk_node 10 20] 2 2 4) 5
           realloc_zero_contract Hreach eq_refl).
Defined.

(** C2. On a heap created with room for 1 to 1024 elements, the inserts
    5, 3, 8, 1, 9, 2 all succeed; calling [ih_remove_min] until it fails then
    yields 1, 2, 3, 5, 8, 9, and calling [ih_remove_max] until it fails on the
    heap after the same inserts yields 9, 8, 5, 3, 2, 1. *)
Theorem insert_then_drain_sorted (cap : Z) :
  1 <= cap <= 1024 ->
  exists h : intervalheap Z,
    heap_of cap [5; 3; 8; 1; 9; 2] = Some h /\
    drain (ih_remove_min 0 intcmp) 7 h = [1; 2; 3; 5; 8; 9] /\
    drain (ih_remove_max 0 intcmp) 7 h = [9; 8; 5; 3; 2; 1].
Proof.
  intros Hcap.
  assert (Hall : forallb round_trip (map Z.of_nat (seq 1 1024)) = true)
    by (vm_compute; reflexivity).
  rewrite forallb_forall in Hall.
  assert (Hrt : round_trip cap = true).
  { apply Hall. apply in_map_iff. exists (Z.to_nat cap).
    split; [lia|]. apply in_seq. lia. }
  unfold round_trip in Hrt.
  destruct (heap_of cap [5; 3; 8; 1; 9; 2]) as [h|]; [|discriminate].
  exists h. apply andb_prop in Hrt as [Hmin Hmax].
  apply bool_decide_eq_true in Hmin, Hmax. auto.
Qed.

(** C2 at a heap created with room for six elements. *)
Lemma insert_then_drain_sorted_witness :
  1 <= 6 <= 1024 /\
  exists h : intervalheap Z,
    heap_of 6 [5; 3; 8; 1; 9; 2] = Some h /\
    drain (ih_remove_min 0 intcmp) 7 h = [1; 2; 3; 5; 8; 9] /\
    drain (ih_remove_max 0 intcmp) 7 h = [9; 8; 5; 3; 2; 1].
Proof.
  split; [lia|]. apply (insert_then_drain_sorted 6). lia.
Defined.

(** C3 fails on the code. Removing the only element of a heap leaves
    [count = 0] with [size = 1]: the branch for a single element returns
    before [size] is decremented. The next insert then opens node 1 and the
    root keeps the cleared value, which [ih_min] reports. *)
Theorem remove_last_keeps_size :
  exists h1 h2 h3 h2' : intervalheap Z,
    heap_of 4 [5] = Some h1 /\
    ih_remove_min 0 intcmp h1 = (Some 5, h2) /\
    count h2 = 0 /\ size h2 = 1 /\
    ih_remove_max 0 intcmp h1 = (Some 5, h2') /\
    count h2' = 0 /\ size h2' = 1 /\
    ih_insert 0 intcmp realloc_zero h2 7 = (true, h3) /\
    count h3 = 1 /\ size h3 = 2 /\
    ih_min 0 h3 = Some 0.
Proof.
  eexists _, _, _, _. repeat split; reflexivity.
Qed.

(** C4 fails on the code. [ih_equals] returns [true] at the first position
    where the two heaps agree: the heaps holding 1, 2 and 1, 3 are reported
    equal although their elements at position 1 differ, and two empty heaps
    are reported different. *)
Theorem equals_first_match :
  exists h1 h2 e : intervalheap Z,
    heap_of 4 [1; 2] = Some h1 /\ heap_of 4 [1; 3] = Some h2 /\
    ih_count h1 = ih_count h2 /\
    intcmp (element_at 0 (buffer h1) 1) (element_at 0 (buffer h2) 1) <> 0 /\
    ih_equals 0 intcmp h1 h2 = true /\
    heap_of 4 [] = Some e /\
    ih_equals 0 intcmp e e = false.
Proof.
  eexists _, _, _. repeat split; try reflexivity. vm_compute. discriminate.
Qed.

(** C5 fails on the code. [ih_iter_advance] returns [false] whenever the
    start flag is set or the cursor is 0, so [ih_iter_go_to] cannot move a
    fresh iterator forward: on a heap of three elements the seek to index 1
    returns [false] and the iterator stays at index 0. *)
Theorem go_to_forward_from_start_fails :
  heap_of 4 [10; 20; 30] = Some heap_10_30_20 /\
  1 < ih_count heap_10_30_20 /\
  ih_iter_go_to heap_10_30_20 (ih_iter_init heap_10_30_20) 1 =
    (false, ih_iter_init heap_10_30_20) /\
  ih_iter_index (snd (ih_iter_go_to heap_10_30_20 (ih_iter_init heap_10_30_20) 1)) = 0 /\
  ih_iter_go_to heap_10_30_20 (ih_iter_to_start heap_10_30_20 (ih_iter_init heap_10_30_20)) 2 =
    (false, ih_iter_init heap_10_30_20).
Proof.
  repeat split; reflexivity.
Qed.

(** The claim C6 as the specification words it: of the four calls only the
    fourth returns [false]. On the heap holding 10, 20, 30 the third call
    already returns [false]. *)
Lemma iter_next_third_call_fails :
  let i0 := ih_iter_to_start heap_10_20_30 (ih_iter_init heap_10_20_30) in
  let r1 := ih_iter_next heap_10_20_30 i0 in
  let r2 := ih_iter_next heap_10_20_30 (snd r1) in
  let r3 := ih_iter_next heap_10_20_30 (snd r2) in
  let r4 := ih_iter_next heap_10_20_30 (snd r3) in
  ~ ([fst r1; fst r2; fst r3; fst r4] = [true; true; true; false]).
Proof.
  vm_compute. discriminate.
Qed.

(** C6 at the heap built from 10, 20, 30. *)
Lemma iter_next_three_elements_witness :
  count heap_10_30_20 = 3 /\
  let i0 := ih_iter_to_start heap_10_30_20 (ih_iter_init heap_10_30_20) in
  let r1 := ih_iter_next heap_10_30_20 i0 in
  let r2 := ih_iter_next heap_10_30_20 (snd r1) in
  let r3 := ih_iter_next heap_10_30_20 (snd r2) in
  let r4 := ih_iter_next heap_10_30_20 (snd r3) in
  [fst r1; fst r2; fst r3; fst r4] = [true; true; false; false] /\
  end_ (snd r2) = false /\ cursor (snd r2) = 2 /\
  end_ (snd r3) = true /\ cursor (snd r3) = 2 /\
  snd r4 = snd r3.
Proof.
  split; [reflexivity|].
  exact (iter_next_three_elements heap_10_30_20 (ih_iter_init heap_10_30_20) eq_refl).
Defined.

(** C7 fails on the code. On the heap of three elements in two nodes the
    request for a capacity of 2 elements, which is below the element count,
    returns [true]: the first guard of [ih_resize] compares the request, which
    counts elements, with the capacity field, which counts nodes, and returns
    before the second guard compares the request with the count. *)
Lemma resize_to_capacity_field_succeeds :
  2 < ih_count heap_10_30_20 /\
  ~ (fst (ih_resize 0 realloc_zero heap_10_30_20 2) = false).
Proof.
  split; [reflexivity|]. vm_compute. discriminate.
Qed.

(** The heap built from 10, 20, 30 and the request for capacity 1, which
    differs from the capacity field: the resize fails. *)
Lemma resize_below_count_witness :
  1 < ih_count heap_10_30_20 /\
  snd (ih_resize 0 realloc_zero heap_10_30_20 1) = heap_10_30_20 /\
  (1 <> ih_capacity heap_10_30_20 ->
   fst (ih_resize 0 realloc_zero heap_10_30_20 1) = false) /\
  (1 = ih_capacity heap_10_30_20 ->
   fst (ih_resize 0 realloc_zero heap_10_30_20 1) = true).
Proof.
  split; [reflexivity|].
  exact (resize_below_count 0 realloc_zero heap_10_30_20 1 eq_refl).
Defined.

(** The claim C8 as the specification words it: the capacity after the insert
    is four times the capacity before. The full heap holding 1, 2 in one node
    has two nodes after the insert of 3. *)
Lemma insert_full_not_four_times :
  ih_full heap_1_2 = true /\
  fst (ih_insert 0 intcmp realloc_zero heap_1_2 3) = true /\
  ih_capacity (snd (ih_insert 0 intcmp realloc_zero heap_1_2 3)) <>
    4 * ih_capacity heap_1_2.
Proof.
  split; [reflexivity|]. split; [reflexivity|]. vm_compute. discriminate.
Qed.

(** C8 at the full heap holding 1, 2 and the insert of 3. *)
Lemma insert_full_doubles_capacity_witness :
  0 <= ih_capacity heap_1_2 /\ ih_capacity heap_1_2 * 4 <= UINT64_MAX /\
  ih_full heap_1_2 = true /\
  ih_insert 0 intcmp realloc_zero heap_1_2 3 =
    (true, mk_heap [mk_node 1 3; mk_node 2 0] 2 2 3) /\
  ih_capacity (mk_heap [mk_node 1 3; mk_node 2 0] 2 2 3) = 2 * ih_capacity heap_1_2.
Proof.
  assert (H0 : 0 <= ih_capacity heap_1_2) by (vm_compute; discriminate).
  assert (H1 : ih_capacity heap_1_2 * 4 <= UINT64_MAX) by (vm_compute; discriminate).
  split; [exact H0|]. split; [exact H1|]. split; [reflexivity|]. split; [reflexivity|].
  exact (insert_full_doubles_capacity 0 intcmp realloc_zero heap_1_2
           (mk_heap [mk_node 1 3; mk_node 2 0] 2 2 3) 3 H0 H1 eq_refl eq_refl).
Defined.

(** C9 at the heap built from 10, 20, 30: [ih_update_max] with 5, which is
    below the minimum 10. *)
Lemma update_swaps_at_root_witness :
  (0 < length (buffer heap_10_30_20))%nat /\
  exists s : intervalheap Z,
    ih_update_max 0 intcmp heap_10_30_20 5 = (true, ih_impl_float_down_max 0 intcmp s) /\
    node_at 0 (buffer s) 0 = mk_node 5 10.
Proof.
  assert (Hlen : (0 < length (buffer heap_10_30_20))%nat) by (cbn; lia).
  split; [exact Hlen|].
  destruct (update_swaps_at_root 0 intcmp heap_10_30_20 5 Hlen) as (_ & _ & Hmany).
  destruct Hmany as (s_max & s_min & Hmax & _ & _ & _ & Hswap & _);
    [vm_compute; discriminate|].
  exists s_max. split; [exact Hmax|]. apply Hswap. reflexivity.
Defined.

(** C10 at the heap built from 10, 20, 30 and the replacement 40. *)
Lemma update_keeps_fields_witness :
  count heap_10_30_20 <> 0 /\
  fst (ih_update_min 0 intcmp heap_10_30_20 40) = true /\
  count (snd (ih_update_min 0 intcmp heap_10_30_20 40)) = count heap_10_30_20.
Proof.
  assert (Hne : count heap_10_30_20 <> 0) by (vm_compute; discriminate).
  split; [exact Hne|].
  destruct (update_keeps_fields 0 intcmp heap_10_30_20 40 Hne) as ((Hok & Hcnt & _) & _).
  split; [exact Hok|exact Hcnt].
Defined.

(** * Instances of the collection properties *)

Lemma heap_10_30_20_well_formed : well_formed heap_10_30_20.
Proof. unfold well_formed. cbn. repeat split; (lia || discriminate). Qed.

Lemma heap_1_2_well_formed : well_formed heap_1_2.
Proof. unfold well_formed. cbn. repeat split; (lia || discriminate). Qed.

Lemma malloc_sevens_contract : malloc_contract malloc_sevens.
Proof. intros n b [= <-]. apply length_replicate. Qed.

Lemma heap_10_30_20_filled : filled 0 intcmp heap_10_30_20 [30; 20; 10].
Proof.
  assert (Hcap : 0 <= 4 <= UINT64_MAX) by (unfold UINT64_MAX; lia).
  pose proof (filled_new 0 intcmp 4 true true true _ Hcap eq_refl) as H0.
  pose proof (filled_insert 0 intcmp realloc_zero _ _ 10 _ realloc_zero_contract H0 eq_refl)
    as H1.
  pose proof (filled_insert 0 intcmp realloc_zero _ _ 20 _ realloc_zero_contract H1 eq_refl)
    as H2.
  exact (filled_insert 0 intcmp realloc_zero _ _ 30 _ realloc_zero_contract H2 eq_refl).
Qed.

(** X1 at the requested capacity 5: three nodes. *)
Lemma new_result_witness :
  0 <= 5 <= UINT64_MAX /\
  forall h : intervalheap Z, ih_new 0 5 true true true = Some h -> ih_capacity h = 3.
Proof.
  assert (Hcap : 0 <= 5 <= UINT64_MAX) by (unfold UINT64_MAX; lia).
  split; [exact Hcap|]. intros h Hnew.
  destruct (new_result 0 5 true true true Hcap) as (_ & Hmade).
  destruct (Hmade h Hnew) as (Hc & _). exact Hc.
Defined.

(** X2 at the heap holding 1 and 2 in its one node and the request for capacity
    4. *)
Lemma resize_grow_witness :
  4 * ih_capacity heap_1_2 <= 4 < UINT64_MAX /\
  ih_resize 0 realloc_zero heap_1_2 4 = (true, mk_heap [mk_node 1 2; mk_node 0 0] 2 1 2) /\
  ih_elements 0 (mk_heap [mk_node 1 2; mk_node 0 0] 2 1 2) = ih_elements 0 heap_1_2.
Proof.
  assert (Hreq : 4 * ih_capacity heap_1_2 <= 4 < UINT64_MAX)
    by (unfold UINT64_MAX; cbn; lia).
  split; [exact Hreq|]. split; [reflexivity|].
  destruct (resize_grow 0 realloc_zero heap_1_2 _ 4 true realloc_zero_contract
              heap_1_2_well_formed Hreq eq_refl) as (_ & Hok).
  destruct (Hok eq_refl) as (_ & _ & Hel & _). exact Hel.
Defined.

(** X14 at the full heap holding 1 and 2 and an allocator that fails. *)
Lemma insert_failure_witness :
  fst (ih_insert 0 intcmp realloc_fail heap_1_2 3) = false /\
  ih_full heap_1_2 = true /\
  fst (ih_resize 0 realloc_fail heap_1_2 (wrap (ih_capacity heap_1_2 * 4))) = false /\
  snd (ih_insert 0 intcmp realloc_fail heap_1_2 3) = heap_1_2.
Proof.
  split; [reflexivity|].
  destruct (insert_failure 0 intcmp realloc_fail heap_1_2 3) as (_ & Hiff & Hsame).
  destruct (proj1 Hiff eq_refl) as (Hfull & Hres).
  split; [exact Hfull|]. split; [exact Hres|]. exact (Hsame eq_refl).
Defined.

(** X9 at the heap built from 10, 20, 30 and the insert of 5. *)
Lemma insert_elements_witness :
  ih_insert 0 intcmp realloc_zero heap_10_30_20 5 = (true, heap_5_30_10_20) /\
  ih_elements 0 heap_5_30_10_20 ≡ₚ ih_elements 0 heap_10_30_20 ++ [5].
Proof.
  split; [reflexivity|].
  destruct (insert_elements 0 intcmp realloc_zero heap_10_30_20 heap_5_30_10_20 5
              realloc_zero_contract heap_10_30_20_well_formed eq_refl) as (_ & _ & Hperm).
  exact Hperm.
Defined.

(** X10 at the heap built from 10, 20, 30. *)
Lemma remove_min_elements_witness :
  count heap_10_30_20 <> 0 /\
  exists (r : Z) (h' : intervalheap Z),
    ih_remove_min 0 intcmp heap_10_30_20 = (Some r, h') /\
    ih_min 0 heap_10_30_20 = Some r /\
    r :: ih_elements 0 h' ≡ₚ ih_elements 0 heap_10_30_20.
Proof.
  assert (Hne : count heap_10_30_20 <> 0) by (cbn; discriminate).
  split; [exact Hne|].
  destruct (remove_min_elements 0 intcmp heap_10_30_20 heap_10_30_20_well_formed Hne)
    as (r & h' & Hrem & Hmin & _ & _ & Hperm & _).
  exists r, h'. split; [exact Hrem|]. split; [exact Hmin|exact Hperm].
Defined.

(** X11 at the heap built from 10, 20, 30. *)
Lemma remove_max_elements_witness :
  count heap_10_30_20 <> 0 /\
  exists (r : Z) (h' : intervalheap Z),
    ih_remove_max 0 intcmp heap_10_30_20 = (Some r, h') /\
    ih_max 0 heap_10_30_20 = Some r /\
    r :: ih_elements 0 h' ≡ₚ ih_elements 0 heap_10_30_20.
Proof.
  assert (Hne : count heap_10_30_20 <> 0) by (cbn; discriminate).
  split; [exact Hne|].
  destruct (remove_max_elements 0 intcmp heap_10_30_20 heap_10_30_20_well_formed Hne)
    as (r & h' & Hrem & Hmax & _ & _ & Hperm & _).
  exists r, h'. split; [exact Hrem|]. split; [exact Hmax|exact Hperm].
Defined.

(** X12 at the heap built from 10, 20, 30 and the replacement 5. *)
Lemma update_max_elements_witness :
  count heap_10_30_20 <> 0 /\
  exists (old : Z) (h' : intervalheap Z),
    ih_max 0 heap_10_30_20 = Some old /\
    ih_update_max 0 intcmp heap_10_30_20 5 = (true, h') /\
    old :: ih_elements 0 h' ≡ₚ 5 :: ih_elements 0 heap_10_30_20.
Proof.
  assert (Hne : count heap_10_30_20 <> 0) by (cbn; discriminate).
  split; [exact Hne|].
  destruct (update_max_elements 0 intcmp heap_10_30_20 5 heap_10_30_20_well_formed Hne)
    as (old & h' & Hmax & Hupd & Hperm & _).
  exists old, h'. split; [exact Hmax|]. split; [exact Hupd|exact Hperm].
Defined.

(** X13 at the heap built from 10, 20, 30 and the replacement 40. *)
Lemma update_min_elements_witness :
  count heap_10_30_20 <> 0 /\
  exists (old : Z) (h' : intervalheap Z),
    ih_min 0 heap_10_30_20 = Some old /\
    ih_update_min 0 intcmp heap_10_30_20 40 = (true, h') /\
    old :: ih_elements 0 h' ≡ₚ 40 :: ih_elements 0 heap_10_30_20.
Proof.
  assert (Hne : count heap_10_30_20 <> 0) by (cbn; discriminate).
  split; [exact Hne|].
  destruct (update_min_elements 0 intcmp heap_10_30_20 40 heap_10_30_20_well_formed Hne)
    as (old & h' & Hmin & Hupd & Hperm & _).
  exists old, h'. split; [exact Hmin|]. split; [exact Hupd|exact Hperm].
Defined.

(** X15 at the heap built from 10, 20, 30, cleared, and the insert of 7. *)
Lemma clear_then_insert_witness :
  0 < capacity heap_10_30_20 < 9223372036854775808 /\
  length (buffer heap_10_30_20) = Z.to_nat (capacity heap_10_30_20) /\
  ih_count (ih_clear 0 heap_10_30_20) = 0 /\
  exists h' : intervalheap Z,
    ih_insert 0 intcmp realloc_zero (ih_clear 0 heap_10_30_20) 7 = (true, h') /\
    ih_min 0 h' = Some 7.
Proof.
  assert (Hcap : 0 < capacity heap_10_30_20 < 9223372036854775808) by (cbn; lia).
  assert (Hlen : length (buffer heap_10_30_20) = Z.to_nat (capacity heap_10_30_20))
    by reflexivity.
  split; [exact Hcap|]. split; [exact Hlen|].
  destruct (clear_then_insert 0 intcmp realloc_zero heap_10_30_20 7 Hcap Hlen)
    as (_ & Hcnt & _ & _ & _ & _ & _ & h' & Hins & _ & Hmin & _).
  split; [exact Hcnt|]. exists h'. split; [exact Hins|exact Hmin].
Defined.

(** X17 at the heap built from 10, 20, 30 and the insert of 5. *)
Lemma insert_then_contains_witness :
  ih_insert 0 intcmp realloc_zero heap_10_30_20 5 = (true, heap_5_30_10_20) /\
  intcmp 5 5 = 0 /\
  ih_contains 0 intcmp heap_5_30_10_20 5 = true.
Proof.
  split; [reflexivity|]. split; [reflexivity|].
  destruct (insert_then_contains 0 intcmp realloc_zero heap_10_30_20 heap_5_30_10_20 5 5
              realloc_zero_contract heap_10_30_20_well_formed eq_refl) as (Hnew & _).
  exact (Hnew eq_refl).
Defined.

(** X8 at the heap built from 10, 20, 30, a copy function that adds 100 and an
    allocation filled with 7s. *)
Lemma copy_of_result_witness :
  length (buffer heap_10_30_20) = Z.to_nat (capacity heap_10_30_20) /\
  0 <= count heap_10_30_20 <= 2 * capacity heap_10_30_20 /\
  forall h' : intervalheap Z,
    ih_copy_of 0 (Some (fun x => x + 100)) true malloc_sevens heap_10_30_20 = Some h' ->
    ih_elements 0 h' = (fun x => x + 100) <$> ih_elements 0 heap_10_30_20.
Proof.
  assert (Hlen : length (buffer heap_10_30_20) = Z.to_nat (capacity heap_10_30_20))
    by reflexivity.
  assert (Hcnt : 0 <= count heap_10_30_20 <= 2 * capacity heap_10_30_20) by (cbn; lia).
  split; [exact Hlen|]. split; [exact Hcnt|]. intros h' Hcopy.
  destruct (copy_of_result 0 (Some (fun x => x + 100)) true malloc_sevens heap_10_30_20
              malloc_sevens_contract Hlen Hcnt) as (_ & Hres).
  destruct (Hres h' Hcopy) as (_ & _ & _ & _ & Hel). exact Hel.
Defined.

(** X19 at the heap built from 10, 20, 30 copied without a copy function. *)
Lemma copy_then_equals_witness :
  ih_copy_of 0 None true malloc_sevens heap_10_30_20 = Some heap_10_30_20 /\
  0 < count heap_10_30_20 /\
  ih_equals 0 intcmp heap_10_30_20 heap_10_30_20 = true.
Proof.
  assert (Hlen : length (buffer heap_10_30_20) = Z.to_nat (capacity heap_10_30_20))
    by reflexivity.
  assert (Hcnt : 0 <= count heap_10_30_20 <= 2 * capacity heap_10_30_20) by (cbn; lia).
  assert (Hpos : 0 < count heap_10_30_20) by (cbn; lia).
  split; [reflexivity|]. split; [exact Hpos|].
  destruct (copy_then_equals 0 intcmp None true malloc_sevens heap_10_30_20 heap_10_30_20
              malloc_sevens_contract Hlen Hcnt eq_refl) as (_ & Htrue).
  exact (Htrue Hpos eq_refl).
Defined.

(** X20 at the heap built from 10, 20, 30. *)
Lemma filled_elements_witness :
  filled 0 intcmp heap_10_30_20 [30; 20; 10] /\
  ih_elements 0 heap_10_30_20 ≡ₚ [30; 20; 10] /\
  ih_count heap_10_30_20 = 3.
Proof.
  split; [exact heap_10_30_20_filled|].
  destruct (filled_elements 0 intcmp heap_10_30_20 [30; 20; 10] heap_10_30_20_filled)
    as (Hperm & Hcnt & _).
  split; [exact Hperm|exact Hcnt].
Defined.

(** X21 at the heap built from 10, 20, 30. *)
Lemma filled_extremes_witness :
  filled 0 intcmp heap_10_30_20 [30; 20; 10] /\
  exists mn mx : Z,
    ih_min 0 heap_10_30_20 = Some mn /\ ih_max 0 heap_10_30_20 = Some mx /\
    mn ∈ [30; 20; 10] /\ mx ∈ [30; 20; 10] /\
    forall x, x ∈ [30; 20; 10] -> intcmp mn x <= 0 /\ intcmp mx x >= 0.
Proof.
  split; [exact heap_10_30_20_filled|].
  apply (filled_extremes 0 intcmp intcmp_antisym intcmp_trans heap_10_30_20 [30; 20; 10]
           heap_10_30_20_filled).
  discriminate.
Defined.

(** X3 at the heap built from 10, 20, 30, with the cursor on index 2 and the
    target index 1. *)
Lemma iter_go_to_result_witness :
  0 <= cursor (mk_iter 2 false true) <= UINT64_MAX /\ 0 <= 1 <= UINT64_MAX /\
  fst (ih_iter_go_to heap_10_30_20 (mk_iter 2 false true) 1) = true /\
  ih_iter_index (snd (ih_iter_go_to heap_10_30_20 (mk_iter 2 false true) 1)) = 1.
Proof.
  assert (Hc : 0 <= cursor (mk_iter 2 false true) <= UINT64_MAX)
    by (unfold UINT64_MAX; cbn; lia).
  assert (Hi : 0 <= 1 <= UINT64_MAX) by (unfold UINT64_MAX; lia).
  split; [exact Hc|]. split; [exact Hi|]. split; [reflexivity|].
  destruct (iter_go_to_result 0 heap_10_30_20 (mk_iter 2 false true) 1 Hc Hi)
    as (_ & Hok & _).
  destruct (Hok eq_refl) as (Hidx & _). exact Hidx.
Defined.

(** X4 at the heap built from 10, 20, 30 and a new iterator. *)
Lemma iter_next_prev_round_trip_witness :
  ih_count heap_10_30_20 <> 0 /\ 0 <= cursor (ih_iter_init heap_10_30_20) < UINT64_MAX /\
  fst (ih_iter_next heap_10_30_20 (ih_iter_init heap_10_30_20)) = true /\
  cursor (snd (ih_iter_prev heap_10_30_20
                 (snd (ih_iter_next heap_10_30_20 (ih_iter_init heap_10_30_20))))) = 0.
Proof.
  assert (Hne : ih_count heap_10_30_20 <> 0) by (cbn; discriminate).
  assert (Hc : 0 <= cursor (ih_iter_init heap_10_30_20) < UINT64_MAX)
    by (unfold UINT64_MAX; cbn; lia).
  split; [exact Hne|]. split; [exact Hc|]. split; [reflexivity|].
  destruct (iter_next_prev_round_trip heap_10_30_20 (ih_iter_init heap_10_30_20) Hne Hc)
    as (Hnp & _).
  destruct (Hnp eq_refl) as (_ & Hback). exact Hback.
Defined.

(** X5 at the heap built from 10, 20, 30, with the cursor on index 1 and 5
    steps. *)
Lemma iter_moves_stay_inside_witness :
  0 <= cursor (mk_iter 1 false false) < ih_count heap_10_30_20 /\
  ih_count heap_10_30_20 <= UINT64_MAX /\ 0 <= 5 <= UINT64_MAX /\
  0 <= cursor (snd (ih_iter_advance heap_10_30_20 (mk_iter 1 false false) 5))
    < ih_count heap_10_30_20.
Proof.
  assert (Hc : 0 <= cursor (mk_iter 1 false false) < ih_count heap_10_30_20) by (cbn; lia).
  assert (Hm : ih_count heap_10_30_20 <= UINT64_MAX) by (unfold UINT64_MAX; cbn; lia).
  assert (Hn : 0 <= 5 <= UINT64_MAX) by (unfold UINT64_MAX; lia).
  split; [exact Hc|]. split; [exact Hm|]. split; [exact Hn|].
  destruct (iter_moves_stay_inside heap_10_30_20 (mk_iter 1 false false) 5 Hc Hm Hn)
    as (_ & _ & _ & _ & Hadv & _).
  exact Hadv.
Defined.

(** X6 at the heap built from 10, 20, 30 and two steps. *)
Lemma iter_forward_walk_witness :
  Z.of_nat 2 < ih_count heap_10_30_20 /\ ih_count heap_10_30_20 <= UINT64_MAX /\
  ih_iter_index
    (repeat_step (fun it => snd (ih_iter_next heap_10_30_20 it)) 2
       (ih_impl_it_start heap_10_30_20)) = Z.of_nat 2.
Proof.
  assert (Hk : Z.of_nat 2 < ih_count heap_10_30_20) by (cbn; lia).
  assert (Hm : ih_count heap_10_30_20 <= UINT64_MAX) by (unfold UINT64_MAX; cbn; lia).
  split; [exact Hk|]. split; [exact Hm|].
  destruct (iter_forward_walk 0 heap_10_30_20 2 Hk Hm) as (Hidx & _). exact Hidx.
Defined.

(** X7 at the heap built from 10, 20, 30 and two steps. *)
Lemma iter_backward_walk_witness :
  Z.of_nat 2 < ih_count heap_10_30_20 /\ ih_count heap_10_30_20 <= UINT64_MAX /\
  ih_iter_index
    (repeat_step (fun it => snd (ih_iter_prev heap_10_30_20 it)) 2
       (ih_impl_it_end heap_10_30_20)) = ih_count heap_10_30_20 - 1 - Z.of_nat 2.
Proof.
  assert (Hk : Z.of_nat 2 < ih_count heap_10_30_20) by (cbn; lia).
  assert (Hm : ih_count heap_10_30_20 <= UINT64_MAX) by (unfold UINT64_MAX; cbn; lia).
  split; [exact Hk|]. split; [exact Hm|].
  destruct (iter_backward_walk 0 heap_10_30_20 2 Hk Hm) as (Hidx & _). exact Hidx.
Defined.
